(** * cpp-stack-tracer: the sample-to-span synthesizer and the instrumentor

    A shallow embedding of [src/simple_sampler.cpp] (the synthesizer
    [convertToTrace]) and of [include/instrumentor.h] (the [Instrumentor]
    session engine and the [InstrumentationTimer] scoped timer), with the
    properties of the specification stated over them. *)

From Stdlib Require Import Ascii ZArith Floats.PrimFloat.
From stdpp Require Import base list strings pretty gmap fin_maps.

Set Warnings "-inexact-float".
Open Scope string_scope.

(** ** simple_sampler.cpp *)

Module Sampler.

(** [struct Sample { double ts; std::vector<std::string> stack; }] *)
Record Sample := mkSample { s_ts : float; s_stack : list string }.

(** [struct Event { double ts; std::string kind; std::string name; }] *)
Record Event := mkEvent { ts : float; kind : string; name : string }.

(** [std::find(v.begin(), v.end(), x) != v.end()] on a vector of strings. *)
Definition found (x : string) (v : list string) : bool :=
  existsb (String.eqb x) v.

(** [v.back()] and [v.pop_back()]: a vector grows and shrinks at its end. *)
Definition back (v : list string) : option string := last v.
Definition pop_back (v : list string) : list string := removelast v.
Definition push_back {A} (v : list A) (x : A) : list A := v ++ [x].

(** The synthesizer's two locals, [running] and [result]. *)
Definition State : Type := list string * list Event.

(** The [while] loop of lines 34-39.  Each turn pops [running], so
    [length running] turns are enough: [fuel] counts them. *)
Fixpoint closeStale_loop (fuel : nat) (sample : Sample) (st : State) : State :=
  let '(running, result) := st in
  match fuel with
  | O => st
  | S fuel' =>
      match back running with
      | None => st
      | Some top =>
          if found top (s_stack sample) then st
          else closeStale_loop fuel' sample
                 (pop_back running,
                  push_back result (mkEvent (s_ts sample) "end" top))
      end
  end.

Definition closeStale (sample : Sample) (st : State) : State :=
  closeStale_loop (length (fst st)) sample st.

(** The [for] loop of lines 42-47 over the frames still to visit. *)
Fixpoint openNew (t : float) (frames : list string) (st : State) : State :=
  match frames with
  | [] => st
  | func :: frames' =>
      let '(running, result) := st in
      if found func running then openNew t frames' st
      else openNew t frames'
             (push_back running func,
              push_back result (mkEvent t "start" func))
  end.

(** The body of the outer [for] loop, lines 31-48. *)
Definition processSample (st : State) (sample : Sample) : State :=
  openNew (s_ts sample) (s_stack sample) (closeStale sample st).

Definition runSamples (samples : list Sample) : State :=
  fold_left processSample samples ([], []).

Definition convertToTrace (samples : list Sample) : list Event :=
  snd (runSamples samples).

(** The three samples built by [main]. *)
Definition main_samples : list Sample :=
  [ mkSample 7.5 ["main"];
    mkSample 9.2 ["main"; "my_fn"];
    mkSample 10.7 ["main"] ].

End Sampler.

(** ** instrumentor.h *)

Module Instr.

Local Open Scope Z_scope.

(** The double-quote and single-quote characters, by their ASCII codes. *)
Definition dquote : ascii := "034"%char.
Definition squote : ascii := "039"%char.

(** [quoted s] is [s] between two double-quote characters. *)
Definition quoted (s : string) : string :=
  String dquote (s +:+ String dquote "").

(** [uint64_t] and [uint32_t] values are integers taken modulo 2^64, 2^32. *)
Definition u64 (z : Z) : Z := z mod 2 ^ 64.
Definition u32 (z : Z) : Z := z mod 2 ^ 32.

(** [nowUs()]: the steady clock's microsecond count, cast to [uint64_t].
    The clock reading is an input of every operation that asks for it. *)
Definition nowUs (clock : Z) : Z := u64 clock.

Record ProfileResult := mkProfileResult
  { name : string; startUs : Z; endUs : Z; threadId : Z }.

Record InstrumentationSession := mkSession { session_name : string }.

(** *** The output sink

    What the environment allows: whether a path can be opened for writing,
    and whether the file at a path takes writes.  The files themselves are
    a map from paths to contents. *)
Record Env := mkEnv
  { openable : string -> bool;
    writable : string -> bool }.

(** [std::ofstream]: the file it is associated with, if any, and whether
    [failbit] or [badbit] is set.  The exception mask is never changed by
    the source, so no stream operation throws. *)
Record ofstream := mkStream { file : option string; failed : bool }.

(** [os.open(filepath, out | trunc)]: fails when a file is already
    associated or the path cannot be opened; on success the file is
    truncated and the state flags are cleared. *)
Definition stream_open (env : Env) (filepath : string)
  (s : ofstream * gmap string string) : ofstream * gmap string string :=
  let '(os, fs) := s in
  match file os with
  | Some _ => (mkStream (file os) true, fs)
  | None =>
      if openable env filepath
      then (mkStream (Some filepath) false, <[filepath := ""]> fs)
      else (mkStream None true, fs)
  end.

(** [os << text], followed in every method of the source by [flush()], so
    that the bytes are taken to reach the file at once.  Nothing is written
    once a state flag is set. *)
Definition stream_write (env : Env) (text : string)
  (s : ofstream * gmap string string) : ofstream * gmap string string :=
  let '(os, fs) := s in
  if failed os then s
  else match file os with
       | None => (mkStream None true, fs)
       | Some p =>
           if writable env p
           then (os, <[p := default "" (fs !! p) +:+ text]> fs)
           else (mkStream (file os) true, fs)
       end.

(** [os.close()]: sets [failbit] when no file is associated. *)
Definition stream_close (s : ofstream * gmap string string)
  : ofstream * gmap string string :=
  let '(os, fs) := s in
  match file os with
  | Some _ => (mkStream None (failed os), fs)
  | None => (mkStream None true, fs)
  end.

(** *** class Instrumentor *)

Record Instrumentor := mkInstrumentor
  { m_session : InstrumentationSession;
    m_currentSessionActive : bool;
    m_outputStream : ofstream;
    m_profileCount : Z;
    m_sessionStartUs : Z }.

(** The private constructor. *)
Definition Instrumentor_new : Instrumentor :=
  mkInstrumentor (mkSession "") false (mkStream None false) 0 0.

(** The singleton together with the files it writes to. *)
Definition World : Type := Instrumentor * gmap string string.

(** A method body is a sequence of commands on the world. *)
Definition Cmd : Type := World -> World.
Definition skip : Cmd := fun w => w.
Definition seq (c1 c2 : Cmd) : Cmd := fun w => c2 (c1 w).
Declare Scope cmd_scope.
Delimit Scope cmd_scope with cmd.
Notation "c1 ;; c2" := (seq c1 c2)
  (at level 100, c2 at level 200, right associativity) : cmd_scope.
Local Open Scope cmd_scope.

Definition on_stream
  (f : ofstream * gmap string string -> ofstream * gmap string string) : Cmd :=
  fun w =>
    let i := fst w in
    let r := f (m_outputStream i, snd w) in
    (mkInstrumentor (m_session i) (m_currentSessionActive i) (fst r)
       (m_profileCount i) (m_sessionStartUs i), snd r).

(** [m_outputStream << text] and [m_outputStream << n] for an unsigned [n]. *)
Definition put (env : Env) (text : string) : Cmd :=
  on_stream (stream_write env text).
Definition put_uint (env : Env) (n : Z) : Cmd := put env (pretty n).
Definition flush : Cmd := skip.

Definition set_session (s : InstrumentationSession) : Cmd :=
  fun w =>
    let i := fst w in
    (mkInstrumentor s (m_currentSessionActive i) (m_outputStream i)
       (m_profileCount i) (m_sessionStartUs i), snd w).
Definition set_active (b : bool) : Cmd :=
  fun w =>
    let i := fst w in
    (mkInstrumentor (m_session i) b (m_outputStream i)
       (m_profileCount i) (m_sessionStartUs i), snd w).
Definition set_profileCount (n : Z) : Cmd :=
  fun w =>
    let i := fst w in
    (mkInstrumentor (m_session i) (m_currentSessionActive i)
       (m_outputStream i) n (m_sessionStartUs i), snd w).
Definition set_sessionStartUs (n : Z) : Cmd :=
  fun w =>
    let i := fst w in
    (mkInstrumentor (m_session i) (m_currentSessionActive i)
       (m_outputStream i) (m_profileCount i) n, snd w).

Definition header : string :=
  "{" +:+ quoted "otherData" +:+ ": {}," +:+ quoted "traceEvents" +:+ ":[".
Definition footer : string := "]}".

Definition writeHeader (env : Env) : Cmd := put env header ;; flush.
Definition writeFooter (env : Env) : Cmd := put env footer ;; flush.

Definition endSession (env : Env) : Cmd :=
  fun w =>
    if negb (m_currentSessionActive (fst w)) then w
    else (writeFooter env ;;
          on_stream stream_close ;;
          set_active false ;;
          set_profileCount 0 ;;
          set_sessionStartUs 0) w.

Definition beginSession (env : Env) (name filepath : string) (clock : Z)
  : Cmd :=
  (fun w => if m_currentSessionActive (fst w) then endSession env w else w) ;;
  on_stream (stream_open env filepath) ;;
  writeHeader env ;;
  set_session (mkSession name) ;;
  set_active true ;;
  set_profileCount 0 ;;
  set_sessionStartUs (nowUs clock).

(** [std::replace(first, last, old_value, new_value)] over a string. *)
Fixpoint replace (old new : ascii) (s : string) : string :=
  match s with
  | EmptyString => EmptyString
  | String c s' =>
      String (if Ascii.eqb c old then new else c) (replace old new s')
  end.

(** [m_profileCount] is an [int]; its overflow after 2^31 - 1 events is
    undefined in the source and is not modelled. *)
Definition writeProfile (env : Env) (result : ProfileResult) : Cmd :=
  fun w =>
    if negb (m_currentSessionActive (fst w)) then w
    else
      let base := m_sessionStartUs (fst w) in
      let start := u64 (startUs result - base) in
      let end_ := u64 (endUs result - base) in
      let count := m_profileCount (fst w) in
      let name' := replace dquote squote (name result) in
      (set_profileCount (count + 1) ;;
       (if 0 <? count then put env ", " else skip) ;;
       put env "{" ;;
       put env (quoted "dur" +:+ ":") ;; put_uint env (u64 (end_ - start)) ;;
         put env "," ;;
       put env (quoted "cat" +:+ ":" +:+ quoted "function" +:+ ",") ;;
       put env (quoted "name" +:+ ":" +:+ String dquote "") ;; put env name' ;;
         put env (String dquote ",") ;;
       put env (quoted "ph" +:+ ":" +:+ quoted "X" +:+ ",") ;;
       put env (quoted "pid" +:+ ":0,") ;;
       put env (quoted "tid" +:+ ":") ;; put_uint env (threadId result) ;;
         put env "," ;;
       put env (quoted "ts" +:+ ":") ;; put_uint env start ;;
       put env "}" ;;
       flush) w.

(** *** class InstrumentationTimer *)

Record InstrumentationTimer := mkTimer
  { m_name : string; m_stopped : bool; m_startUs : Z }.

(** The constructor reads the clock. *)
Definition Timer_new (name : string) (clock : Z) : InstrumentationTimer :=
  mkTimer name false (nowUs clock).

(** The world of the timers: the singleton and the files, and the log of
    the calls [Instrumentor::get().writeProfile(r)] made so far. *)
Definition Traced : Type := World * list ProfileResult.

Definition submit (env : Env) (r : ProfileResult) (s : Traced) : Traced :=
  (writeProfile env r (fst s), (snd s ++ [r])%list).

(** [stop()]: [clock] is the reading of the clock, [thread] the hash of the
    calling thread's id, which the source casts to [uint32_t]. *)
Definition stop (env : Env) (t : InstrumentationTimer) (clock thread : Z)
  (s : Traced) : InstrumentationTimer * Traced :=
  if m_stopped t then (t, s)
  else
    let endUs := nowUs clock in
    let threadId := u32 thread in
    (mkTimer (m_name t) true (m_startUs t),
     submit env (mkProfileResult (m_name t) (m_startUs t) endUs threadId) s).

(** The destructor. *)
Definition Timer_delete (env : Env) (t : InstrumentationTimer)
  (clock thread : Z) (s : Traced) : Traced :=
  if negb (m_stopped t) then snd (stop env t clock thread s) else s.

End Instr.

(** ** The synthesizer as the specification words it *)

Module SamplerSpec.
Import Sampler.
Local Open Scope list_scope.

(** Step 1, close stale frames: while the running stack is non-empty and
    its topmost frame, the one opened last, which stands at the end of the
    list, occurs nowhere in the sample's stack, emit an End event for it at
    the sample's timestamp and remove it. *)
Inductive close_stale (sample : Sample) : State -> State -> Prop :=
  | close_empty result :
      close_stale sample ([], result) ([], result)
  | close_stop rest top result :
      In top (s_stack sample) ->
      close_stale sample (rest ++ [top], result) (rest ++ [top], result)
  | close_pop rest top result st' :
      ~ In top (s_stack sample) ->
      close_stale sample
        (rest, result ++ [mkEvent (s_ts sample) "end" top]) st' ->
      close_stale sample (rest ++ [top], result) st'.

(** Step 2, open new frames: for each frame of the sample's stack, root
    first, that is not in the running stack, emit a Start event at the
    sample's timestamp and append the frame to the running stack. *)
Inductive open_new (t : float) : list string -> State -> State -> Prop :=
  | open_done st : open_new t [] st st
  | open_skip func frames running result st' :
      In func running ->
      open_new t frames (running, result) st' ->
      open_new t (func :: frames) (running, result) st'
  | open_push func frames running result st' :
      ~ In func running ->
      open_new t frames
        (running ++ [func], result ++ [mkEvent t "start" func]) st' ->
      open_new t (func :: frames) (running, result) st'.

(** One sample: step 1, and only then step 2. *)
Definition sample_step (sample : Sample) (st st' : State) : Prop :=
  exists mid,
    close_stale sample st mid /\
    open_new (s_ts sample) (s_stack sample) mid st'.

(** How many events of kind [k] the output holds for the frame [f]. *)
Definition occurrences (k f : string) (events : list Event) : nat :=
  length (List.filter (fun e => String.eqb (kind e) k && String.eqb (name e) f)
            events).

Definition count_name (f : string) (v : list string) : nat :=
  length (List.filter (String.eqb f) v).

(** Every frame has as many Starts as Ends, plus one for each time it
    stands on the running stack, where it stands at most once. *)
Definition balanced (st : State) : Prop :=
  NoDup (fst st) /\
  forall f, occurrences "start" f (snd st) =
            occurrences "end" f (snd st) + count_name f (fst st).

(** The precondition on the input: timestamps never decrease. *)
Fixpoint nondecreasing (samples : list Sample) : bool :=
  match samples with
  | a :: (b :: _) as rest => PrimFloat.leb (s_ts a) (s_ts b) && nondecreasing rest
  | _ => true
  end.

(** What an event says apart from its timestamp. *)
Definition label (e : Event) : string * string := (kind e, name e).

(** Two states that differ in the timestamps of their events only. *)
Definition same_labels (st st' : State) : Prop :=
  fst st = fst st' /\ map label (snd st) = map label (snd st').

(** A sequence that goes back in time. *)
Definition backwards_samples : list Sample :=
  [ mkSample 7.5 ["main"]; mkSample 5 ["main"; "my_fn"] ].
Definition forwards_samples : list Sample :=
  [ mkSample 7.5 ["main"]; mkSample 9.2 ["main"; "my_fn"] ].

End SamplerSpec.

(** ** The instrumentor's output and its clients *)

Module InstrSpec.
Import Instr.
Local Open Scope Z_scope.
Local Open Scope cmd_scope.

(** The texts of a list put one after the other. *)
Definition cat (texts : list string) : string :=
  fold_right String.append "" texts.

(** The operands of [<<] in [writeProfile], lines 169-177, for a duration,
    a sanitized name, a thread id and a start time. *)
Definition eventPieces (dur : Z) (name : string) (tid ts : Z) : list string :=
  [ "{";
    quoted "dur" +:+ ":"; pretty dur; ",";
    quoted "cat" +:+ ":" +:+ quoted "function" +:+ ",";
    quoted "name" +:+ ":" +:+ String dquote ""; name; String dquote ",";
    quoted "ph" +:+ ":" +:+ quoted "X" +:+ ",";
    quoted "pid" +:+ ":0,";
    quoted "tid" +:+ ":"; pretty tid; ",";
    quoted "ts" +:+ ":"; pretty ts;
    "}" ].

Definition eventJson (dur : Z) (name : string) (tid ts : Z) : string :=
  cat (eventPieces dur name tid ts).

(** The [ts] and [dur] fields for a session whose baseline is [base]. *)
Definition ts_field (base : Z) (r : ProfileResult) : Z :=
  u64 (startUs r - base).
Definition dur_field (base : Z) (r : ProfileResult) : Z :=
  u64 (u64 (endUs r - base) - u64 (startUs r - base)).

Definition sanitize (name : string) : string := replace dquote squote name.

Definition eventText (base : Z) (r : ProfileResult) : string :=
  eventJson (dur_field base r) (sanitize (name r)) (threadId r)
    (ts_field base r).

(** The separator written before an event: none before the first. *)
Definition separator (count : Z) : string := if 0 <? count then ", " else "".

(** The document of section 6: the header, the events separated by a comma
    and a space, the footer. *)
Definition document (base : Z) (rs : list ProfileResult) : string :=
  header +:+ String.concat ", " (map (eventText base) rs) +:+ footer.

(** Between sessions no file is associated with the stream. *)
Definition closed_when_inactive (w : World) : Prop :=
  m_currentSessionActive (fst w) = false ->
  file (m_outputStream (fst w)) = None.

(** *** Programs that use timers

    A client constructs timers, stops them, lets them go out of scope, and
    begins and ends sessions.  A timer is named by the place it lives at;
    [Stop] and [Destroy] need a live timer, [Construct] a free place. *)
Inductive Op :=
  | Construct (id : nat) (name : string) (clock : Z)
  | Stop (id : nat) (clock thread : Z)
  | Destroy (id : nat) (clock thread : Z)
  | BeginSession (name filepath : string) (clock : Z)
  | EndSession.

Record Process := mkProcess
  { traced : Traced; timers : gmap nat InstrumentationTimer }.

Definition is_construct (op : Op) : bool :=
  match op with Construct _ _ _ => true | _ => false end.

Definition constructions (ops : list Op) : nat :=
  length (List.filter is_construct ops).

(** The live timers that have not been stopped yet. *)
Definition running_timers (m : gmap nat InstrumentationTimer)
  : gmap nat InstrumentationTimer :=
  filter (fun kv => m_stopped (snd kv) = false) m.

Section WithEnv.
Variable env : Env.

Definition puts (texts : list string) : Cmd :=
  fold_right (fun text c => put env text ;; c) skip texts.

(** Submitting intervals one after the other. *)
Definition record_all (rs : list ProfileResult) (w : World) : World :=
  fold_left (fun w r => writeProfile env r w) rs w.

(** The stream is associated with the file [p], no state flag is set, the
    file takes writes and holds [content]. *)
Definition open_at (p content : string) (w : World) : Prop :=
  m_outputStream (fst w) = mkStream (Some p) false /\
  writable env p = true /\
  snd w !! p = Some content.

(** A session is active on [p] with baseline [base], and [texts] are the
    events written so far. *)
Definition session_at (p : string) (base : Z) (texts : list string)
  (w : World) : Prop :=
  m_currentSessionActive (fst w) = true /\
  m_sessionStartUs (fst w) = base /\
  m_profileCount (fst w) = Z.of_nat (length texts) /\
  open_at p (header +:+ String.concat ", " texts) w.

Definition exec (op : Op) (pr : Process) : option Process :=
  match op with
  | Construct id name clock =>
      match timers pr !! id with
      | Some _ => None
      | None =>
          Some (mkProcess (traced pr) (<[id := Timer_new name clock]> (timers pr)))
      end
  | Stop id clock thread =>
      match timers pr !! id with
      | None => None
      | Some t =>
          let '(t', s) := stop env t clock thread (traced pr) in
          Some (mkProcess s (<[id := t']> (timers pr)))
      end
  | Destroy id clock thread =>
      match timers pr !! id with
      | None => None
      | Some t =>
          Some (mkProcess (Timer_delete env t clock thread (traced pr))
                  (delete id (timers pr)))
      end
  | BeginSession name filepath clock =>
      Some (mkProcess
              (beginSession env name filepath clock (fst (traced pr)),
               snd (traced pr))
              (timers pr))
  | EndSession =>
      Some (mkProcess (endSession env (fst (traced pr)), snd (traced pr))
              (timers pr))
  end.

Fixpoint run (ops : list Op) (pr : Process) : option Process :=
  match ops with
  | [] => Some pr
  | op :: ops' =>
      match exec op pr with
      | Some pr' => run ops' pr'
      | None => None
      end
  end.

End WithEnv.

(** An environment in which one path cannot be opened and another takes
    no writes. *)
Definition bad_path : string := "/nonexistent/trace.json".
Definition full_path : string := "/full/trace.json".
Definition harsh_env : Env :=
  mkEnv (fun p => negb (String.eqb p bad_path))
        (fun p => negb (String.eqb p full_path)).

(** The singleton as constructed, with no files yet. *)
Definition fresh_world : World := (Instrumentor_new, ∅).

(** A session begun at time 100 on a file that can be opened and written,
    and three intervals: one whose name holds a double-quote and which
    started, at 50, before the session; two ordinary ones. *)
Definition demo_world : World :=
  beginSession harsh_env "Demo" "trace.json" 100 fresh_world.
Definition early_interval : ProfileResult :=
  mkProfileResult ("say " +:+ quoted "hi") 50 160 7.
Definition first_interval : ProfileResult := mkProfileResult "load" 110 150 7.
Definition second_interval : ProfileResult := mkProfileResult "draw" 150 190 7.

(** Two nested timers, the inner one stopped twice by hand. *)
Definition demo_program : list Op :=
  [ BeginSession "Demo" "trace.json" 100;
    Construct 0 "outer" 110;
    Construct 1 "inner" 120;
    Stop 1 130 7;
    Stop 1 135 7;
    Destroy 1 140 7;
    Destroy 0 150 7;
    EndSession ].
Definition demo_start : Process := mkProcess (fresh_world, []) ∅.
Definition demo_final : Process :=
  default demo_start (run harsh_env demo_program demo_start).

End InstrSpec.

(** ** Reading a trace back *)

Module Replay.
Import Sampler.
Local Open Scope list_scope.

(** A consumer of the events keeps the stack of the frames it has seen
    start: a start pushes its frame, an end must name the frame on top and
    pops it, and no other kind of event is understood. *)
Fixpoint replay (events : list Event) (open : list string)
  : option (list string) :=
  match events with
  | [] => Some open
  | e :: events' =>
      if String.eqb (kind e) "start" then replay events' (open ++ [name e])
      else if String.eqb (kind e) "end" then
        match back open with
        | Some top =>
            if String.eqb top (name e) then replay events' (pop_back open)
            else None
        | None => None
        end
      else None
  end.

End Replay.

(** ** tests/instrumentor_test.cpp: counting the events of a document *)

Module TestSupport.
Import Instr.
Local Open Scope Z_scope.

(** The text every event holds once, [ph] and [X] quoted with a colon
    between them. *)
Definition needle : string := quoted "ph" +:+ ":" +:+ quoted "X".

(** The [while] loop of [countEvents], lines 25-29: [json.find(needle, pos)]
    is [String.index pos needle json].  Every turn moves [pos] forward, so
    the loop makes fewer turns than [json] has characters: [fuel] counts
    them.  [count] is an [int] that stays below the length of [json]. *)
Fixpoint countEvents_loop (fuel : nat) (json : string) (count : Z) (pos : nat)
  : Z :=
  match fuel with
  | O => count
  | S fuel' =>
      match String.index pos needle json with
      | None => count
      | Some pos' =>
          countEvents_loop fuel' json (count + 1)
            (pos' + String.length needle)
      end
  end.

Definition countEvents (json : string) : Z :=
  countEvents_loop (S (String.length json)) json 0 0.

(** A text with no double-quote in it. *)
Fixpoint unquoted (s : string) : bool :=
  match s with
  | EmptyString => true
  | String c s' => negb (Ascii.eqb c dquote) && unquoted s'
  end.

(** [mismatch n s]: [n] and [s] differ at a place both have. *)
Fixpoint mismatch (n s : string) : bool :=
  match n, s with
  | String x n', String c s' =>
      if Ascii.eqb x c then mismatch n' s' else true
  | _, _ => false
  end.

(** [safe a]: at no place of [a] can a [needle] begin, whatever follows
    [a]. *)
Fixpoint safe (a : string) : bool :=
  match a with
  | EmptyString => true
  | String _ a' => mismatch needle a && safe a'
  end.

(** The steps of a client that are about timers, not sessions. *)
Definition is_timer_op (op : InstrSpec.Op) : bool :=
  match op with
  | InstrSpec.BeginSession _ _ _ | InstrSpec.EndSession => false
  | _ => true
  end.

End TestSupport.

(** ** A steady clock *)

Module SteadyClock.
Import Instr InstrSpec.
Local Open Scope Z_scope.

(** The reading of the clock that a step of a client takes, if any. *)
Definition op_clock (op : Op) : option Z :=
  match op with
  | Construct _ _ clock | Stop _ clock _ | Destroy _ clock _
  | BeginSession _ _ clock => Some clock
  | EndSession => None
  end.

(** [std::chrono::steady_clock] never goes back: along the steps of a
    program the readings do not decrease, from [now] on, and they fit in a
    [uint64_t]. *)
Fixpoint steady (now : Z) (ops : list Op) : bool :=
  match ops with
  | [] => true
  | op :: ops' =>
      match op_clock op with
      | Some clock => (now <=? clock) && (clock <? 2 ^ 64) && steady clock ops'
      | None => steady now ops'
      end
  end.

(** An interval that ends no earlier than it starts. *)
Definition forward (r : ProfileResult) : Prop :=
  0 <= startUs r /\ startUs r <= endUs r /\ endUs r < 2 ^ 64.

(** What holds between two steps: the live timers started no later than
    the last reading, and the intervals submitted so far run forward. *)
Definition steady_state (now : Z) (pr : Process) : Prop :=
  0 <= now /\
  map_Forall (fun _ t => 0 <= m_startUs t <= now) (timers pr) /\
  Forall forward (snd (traced pr)).

End SteadyClock.

(** ** What a JSON text is (RFC 8259) *)

Module Json.
Import Instr.
Local Open Scope char_scope.

(** A recogniser that reads a text one character at a time, with the
    stack of the objects and arrays it is inside.  The grammar is that of
    RFC 8259; bytes above 127 are taken as parts of well-formed UTF-8. *)
Inductive container := InObject | InArray.

Inductive mode :=
  | Value                 (* a value must begin *)
  | ArrayStart            (* after a left bracket: a value or the right one *)
  | ObjectStart           (* after a left brace: a name or the right one *)
  | Key                   (* after a comma in an object: a name *)
  | Colon                 (* after a name: the colon *)
  | After                 (* after a value *)
  | Str (key : bool)      (* in a string, a name of a member or not *)
  | Esc (key : bool)      (* after a backslash in a string *)
  | Hex (key : bool) (more : nat)  (* in the four digits after backslash u *)
  | Minus | Zero | Int | Frac0 | Frac | Exp0 | ExpSign | Exp  (* in a number *)
  | Lit (rest : string).  (* in true, false or null *)

Definition is_ws (c : ascii) : bool :=
  Ascii.eqb c " " || Ascii.eqb c "009" || Ascii.eqb c "010" || Ascii.eqb c "013".

Definition is_digit (c : ascii) : bool :=
  Nat.leb 48 (nat_of_ascii c) && Nat.leb (nat_of_ascii c) 57.

Definition is_hex (c : ascii) : bool :=
  is_digit c
  || (Nat.leb 65 (nat_of_ascii c) && Nat.leb (nat_of_ascii c) 70)
  || (Nat.leb 97 (nat_of_ascii c) && Nat.leb (nat_of_ascii c) 102).

Definition is_control (c : ascii) : bool := Nat.ltb (nat_of_ascii c) 32.

Definition is_e (c : ascii) : bool := Ascii.eqb c "e" || Ascii.eqb c "E".

Definition close (which : container) (stack : list container)
  : option (mode * list container) :=
  match which, stack with
  | InObject, InObject :: rest => Some (After, rest)
  | InArray, InArray :: rest => Some (After, rest)
  | _, _ => None
  end.

Definition start_value (c : ascii) (stack : list container)
  : option (mode * list container) :=
  if Ascii.eqb c dquote then Some (Str false, stack)
  else if Ascii.eqb c "{" then Some (ObjectStart, InObject :: stack)
  else if Ascii.eqb c "[" then Some (ArrayStart, InArray :: stack)
  else if Ascii.eqb c "-" then Some (Minus, stack)
  else if Ascii.eqb c "0" then Some (Zero, stack)
  else if is_digit c then Some (Int, stack)
  else if Ascii.eqb c "t" then Some (Lit "rue", stack)
  else if Ascii.eqb c "f" then Some (Lit "alse", stack)
  else if Ascii.eqb c "n" then Some (Lit "ull", stack)
  else None.

Definition after_value (c : ascii) (stack : list container)
  : option (mode * list container) :=
  if is_ws c then Some (After, stack)
  else if Ascii.eqb c "," then
    match stack with
    | InObject :: _ => Some (Key, stack)
    | InArray :: _ => Some (Value, stack)
    | [] => None
    end
  else if Ascii.eqb c "}" then close InObject stack
  else if Ascii.eqb c "]" then close InArray stack
  else None.

Definition step (st : mode * list container) (c : ascii)
  : option (mode * list container) :=
  let '(m, stack) := st in
  match m with
  | Value => if is_ws c then Some st else start_value c stack
  | ArrayStart =>
      if is_ws c then Some st
      else if Ascii.eqb c "]" then close InArray stack
      else start_value c stack
  | ObjectStart =>
      if is_ws c then Some st
      else if Ascii.eqb c dquote then Some (Str true, stack)
      else if Ascii.eqb c "}" then close InObject stack
      else None
  | Key =>
      if is_ws c then Some st
      else if Ascii.eqb c dquote then Some (Str true, stack)
      else None
  | Colon =>
      if is_ws c then Some st
      else if Ascii.eqb c ":" then Some (Value, stack)
      else None
  | After => after_value c stack
  | Str key =>
      if Ascii.eqb c dquote then Some (if key then Colon else After, stack)
      else if Ascii.eqb c "\" then Some (Esc key, stack)
      else if is_control c then None
      else Some (Str key, stack)
  | Esc key =>
      if Ascii.eqb c dquote || Ascii.eqb c "\" || Ascii.eqb c "/"
         || Ascii.eqb c "b" || Ascii.eqb c "f" || Ascii.eqb c "n"
         || Ascii.eqb c "r" || Ascii.eqb c "t"
      then Some (Str key, stack)
      else if Ascii.eqb c "u" then Some (Hex key 3, stack)
      else None
  | Hex key more =>
      if is_hex c then
        match more with
        | O => Some (Str key, stack)
        | S more' => Some (Hex key more', stack)
        end
      else None
  | Minus =>
      if Ascii.eqb c "0" then Some (Zero, stack)
      else if is_digit c then Some (Int, stack)
      else None
  | Zero =>
      if Ascii.eqb c "." then Some (Frac0, stack)
      else if is_e c then Some (Exp0, stack)
      else after_value c stack
  | Int =>
      if is_digit c then Some (Int, stack)
      else if Ascii.eqb c "." then Some (Frac0, stack)
      else if is_e c then Some (Exp0, stack)
      else after_value c stack
  | Frac0 => if is_digit c then Some (Frac, stack) else None
  | Frac =>
      if is_digit c then Some (Frac, stack)
      else if is_e c then Some (Exp0, stack)
      else after_value c stack
  | Exp0 =>
      if Ascii.eqb c "+" || Ascii.eqb c "-" then Some (ExpSign, stack)
      else if is_digit c then Some (Exp, stack)
      else None
  | ExpSign => if is_digit c then Some (Exp, stack) else None
  | Exp => if is_digit c then Some (Exp, stack) else after_value c stack
  | Lit rest =>
      match rest with
      | String x rest' =>
          if Ascii.eqb c x
          then Some (match rest' with EmptyString => After | _ => Lit rest' end,
                     stack)
          else None
      | EmptyString => None
      end
  end.

Fixpoint run (st : mode * list container) (s : string)
  : option (mode * list container) :=
  match s with
  | EmptyString => Some st
  | String c s' =>
      match step st c with
      | Some st' => run st' s'
      | None => None
      end
  end.

(** A text is JSON when it is read to its end, one value has been read
    and nothing is left open. *)
Definition json_valid (s : string) : bool :=
  match run (Value, []) s with
  | Some (After, []) | Some (Zero, []) | Some (Int, [])
  | Some (Frac, []) | Some (Exp, []) => true
  | _ => false
  end.

(** A name that needs no escaping but for its double-quotes: it has no
    backslash and no control character. *)
Fixpoint plain (s : string) : bool :=
  match s with
  | EmptyString => true
  | String c s' =>
      negb (Ascii.eqb c "\") && negb (is_control c) && plain s'
  end.

Fixpoint all_digits (s : string) : bool :=
  match s with
  | EmptyString => true
  | String c s' => is_digit c && all_digits s'
  end.

(** An interval whose name ends in a backslash. *)
Definition backslash_interval : ProfileResult :=
  mkProfileResult "C:\" 110 150 7.

End Json.

Module SamplerFacts.
Import Sampler SamplerSpec.
Local Open Scope list_scope.

(** *** Vectors *)

Lemma back_snoc (v : list string) x : back (v ++ [x]) = Some x.
Proof. apply last_snoc. Qed.

Lemma pop_back_snoc (v : list string) x : pop_back (v ++ [x]) = v.
Proof. apply removelast_last. Qed.

Lemma back_Some (v : list string) x : back v = Some x -> v = pop_back v ++ [x].
Proof.
  intros H. apply last_Some in H as [v' ->]. now rewrite pop_back_snoc.
Qed.

Lemma found_In x v : found x v = true <-> In x v.
Proof.
  unfold found. rewrite existsb_exists. split.
  - intros (y & Hy & Heq). apply String.eqb_eq in Heq. now subst.
  - intros H. exists x. split; [assumption | apply String.eqb_refl].
Qed.

Lemma found_not_In x v : found x v = false <-> ~ In x v.
Proof.
  rewrite <- found_In. destruct (found x v); split; congruence.
Qed.

(** *** The loops, one turn at a time *)

Lemma closeStale_nil sample result :
  closeStale sample ([], result) = ([], result).
Proof. reflexivity. Qed.

Lemma closeStale_snoc sample running top result :
  closeStale sample (running ++ [top], result) =
    if found top (s_stack sample) then (running ++ [top], result)
    else closeStale sample
           (running, result ++ [mkEvent (s_ts sample) "end" top]).
Proof.
  unfold closeStale; cbn [fst].
  rewrite length_app, Nat.add_1_r; cbn [closeStale_loop].
  rewrite back_snoc, pop_back_snoc.
  destruct (found top (s_stack sample)); reflexivity.
Qed.

Lemma closeStale_eq sample running result :
  closeStale sample (running, result) =
    match back running with
    | None => (running, result)
    | Some top =>
        if found top (s_stack sample) then (running, result)
        else closeStale sample
               (pop_back running,
                push_back result (mkEvent (s_ts sample) "end" top))
    end.
Proof.
  destruct (back running) as [top|] eqn:Hb.
  - apply back_Some in Hb. rewrite Hb at 1 2.
    rewrite closeStale_snoc. reflexivity.
  - apply last_None in Hb. subst. reflexivity.
Qed.

Lemma runSamples_snoc samples sample :
  runSamples (samples ++ [sample]) = processSample (runSamples samples) sample.
Proof. unfold runSamples. now rewrite fold_left_app. Qed.

(** *** The code does what the two steps say, and nothing else does *)

Lemma closeStale_sound sample st : close_stale sample st (closeStale sample st).
Proof.
  destruct st as [running result]. revert result.
  induction running as [|top running IH] using rev_ind; intros result.
  - rewrite closeStale_nil. constructor.
  - rewrite closeStale_snoc.
    destruct (found top (s_stack sample)) eqn:Hf.
    + apply close_stop. now apply found_In.
    + apply close_pop; [now apply found_not_In | apply IH].
Qed.

Lemma closeStale_complete sample st st' :
  close_stale sample st st' -> st' = closeStale sample st.
Proof.
  induction 1 as [result | rest top result Hin | rest top result st' Hn _ IH].
  - now rewrite closeStale_nil.
  - rewrite closeStale_snoc. apply found_In in Hin. now rewrite Hin.
  - rewrite closeStale_snoc. apply found_not_In in Hn. now rewrite Hn.
Qed.

Lemma openNew_sound t frames st : open_new t frames st (openNew t frames st).
Proof.
  revert st. induction frames as [|func frames IH]; intros [running result].
  - constructor.
  - cbn [openNew]. destruct (found func running) eqn:Hf.
    + apply open_skip; [now apply found_In | apply IH].
    + apply open_push; [now apply found_not_In | apply IH].
Qed.

Lemma openNew_complete t frames st st' :
  open_new t frames st st' -> st' = openNew t frames st.
Proof.
  induction 1 as [st | func frames running result st' Hin _ IH
                 | func frames running result st' Hn _ IH].
  - reflexivity.
  - cbn [openNew]. apply found_In in Hin. now rewrite Hin.
  - cbn [openNew]. apply found_not_In in Hn. now rewrite Hn.
Qed.

Lemma sample_step_processSample sample st st' :
  sample_step sample st st' <-> st' = processSample st sample.
Proof.
  unfold sample_step, processSample. split.
  - intros (mid & Hc & Ho). apply closeStale_complete in Hc. subst mid.
    now apply openNew_complete.
  - intros ->. exists (closeStale sample st).
    split; [apply closeStale_sound | apply openNew_sound].
Qed.


(** C1. For the samples of [main], (7.5,[main]), (9.2,[main,my_fn]),
    (10.7,[main]), [convertToTrace] returns exactly Start main at 7.5,
    Start my_fn at 9.2, End my_fn at 10.7, in that order and nothing more:
    no End for main follows. *)
Theorem convertToTrace_main_samples :
  convertToTrace main_samples =
    [ mkEvent 7.5 "start" "main";
      mkEvent 9.2 "start" "my_fn";
      mkEvent 10.7 "end" "my_fn" ].
Proof. reflexivity. Qed.

(** C2. For every sample sequence and every next sample, the state after
    the sample is the one reached by first closing stale frames (while the
    running stack is non-empty and its top occurs nowhere in the whole
    sample stack, emit End at the sample's timestamp and pop) and only then
    opening new frames (for each frame of the sample, root first, that is
    not in the running stack, emit Start at the sample's timestamp and
    push); and no other state is reached that way. *)
Theorem processSample_close_then_open samples sample st' :
  sample_step sample (runSamples samples) st' <->
  st' = runSamples (samples ++ [sample]).
Proof.
  rewrite runSamples_snoc. apply sample_step_processSample.
Qed.

(** Closing looks for the top frame anywhere in the sample's stack: a
    frame that has moved to another depth is neither closed nor reopened. *)
Example membership_not_position :
  convertToTrace [ mkSample 1 ["a"; "b"]; mkSample 2 ["b"; "a"] ] =
    [ mkEvent 1 "start" "a"; mkEvent 1 "start" "b" ].
Proof. reflexivity. Qed.

(** *** What the loops preserve *)

Lemma closeStale_preserves (P : State -> Prop) sample :
  (forall running top result,
      ~ In top (s_stack sample) ->
      P (running ++ [top], result) ->
      P (running, result ++ [mkEvent (s_ts sample) "end" top])) ->
  forall st, P st -> P (closeStale sample st).
Proof.
  intros Hpop [running result]. revert result.
  induction running as [|top running IH] using rev_ind; intros result HP.
  - now rewrite closeStale_nil.
  - rewrite closeStale_snoc.
    destruct (found top (s_stack sample)) eqn:Hf; [assumption|].
    apply IH, Hpop; [now apply found_not_In | assumption].
Qed.

Lemma openNew_preserves (P : State -> Prop) t :
  (forall running func result,
      ~ In func running ->
      P (running, result) ->
      P (running ++ [func], result ++ [mkEvent t "start" func])) ->
  forall frames st, P st -> P (openNew t frames st).
Proof.
  intros Hpush frames.
  induction frames as [|func frames IH]; intros [running result] HP.
  - assumption.
  - cbn [openNew]. destruct (found func running) eqn:Hf.
    + now apply IH.
    + apply IH, Hpush; [now apply found_not_In | assumption].
Qed.

Lemma runSamples_preserves (P : State -> Prop) :
  P ([], []) ->
  (forall st sample, P st -> P (processSample st sample)) ->
  forall samples, P (runSamples samples).
Proof.
  intros H0 Hstep samples.
  induction samples as [|sample samples IH] using rev_ind.
  - exact H0.
  - rewrite runSamples_snoc. now apply Hstep.
Qed.

(** *** Starts, Ends and the running stack *)

Lemma occurrences_snoc k f events e :
  occurrences k f (events ++ [e]) =
    occurrences k f events +
    (if String.eqb (kind e) k && String.eqb (name e) f then 1 else 0).
Proof.
  unfold occurrences. rewrite List.filter_app, length_app. cbn [List.filter].
  destruct (String.eqb (kind e) k && String.eqb (name e) f); reflexivity.
Qed.

Lemma count_name_snoc f v x :
  count_name f (v ++ [x]) = count_name f v + (if String.eqb f x then 1 else 0).
Proof.
  unfold count_name. rewrite List.filter_app, length_app. cbn [List.filter].
  destruct (String.eqb f x); reflexivity.
Qed.

Lemma count_name_absent f v : ~ In f v -> count_name f v = 0.
Proof.
  induction v as [|x v IH]; intros Hn; [reflexivity|].
  unfold count_name in *. cbn [List.filter].
  destruct (String.eqb_spec f x) as [->|Hne].
  - exfalso. apply Hn. now left.
  - apply IH. intros Hin. apply Hn. now right.
Qed.

Lemma count_name_once f v : NoDup v -> In f v -> count_name f v = 1.
Proof.
  induction 1 as [|x v Hx Hnd IH]; intros Hin; [destruct Hin|].
  unfold count_name in *. cbn [List.filter].
  destruct (String.eqb_spec f x) as [->|Hne].
  - cbn [length]. f_equal. apply count_name_absent.
    now rewrite <- list_elem_of_In.
  - destruct Hin as [->|Hin]; [congruence | now apply IH].
Qed.

Lemma processSample_balanced st sample :
  balanced st -> balanced (processSample st sample).
Proof.
  intros Hb. unfold processSample.
  apply openNew_preserves.
  - clear. intros running func result Hn [Hnd Hc].
    unfold balanced; cbn [fst snd] in *. split.
    + apply NoDup_app. split; [assumption|]. split.
      * intros x Hx Hx'. apply list_elem_of_singleton in Hx'. subst x.
        now apply Hn, list_elem_of_In.
      * apply NoDup_singleton.
    + intros f. rewrite !occurrences_snoc, count_name_snoc, Hc. cbn.
      rewrite (String.eqb_sym func f).
      destruct (String.eqb f func); lia.
  - apply closeStale_preserves; [|assumption].
    clear. intros running top result _ [Hnd Hc].
    unfold balanced; cbn [fst snd] in *. split.
    + now apply NoDup_app in Hnd as [Hnd _].
    + intros f. specialize (Hc f).
      rewrite count_name_snoc in Hc. rewrite !occurrences_snoc. cbn.
      rewrite (String.eqb_sym top f).
      destruct (String.eqb f top); lia.
Qed.

Lemma runSamples_balanced samples : balanced (runSamples samples).
Proof.
  apply runSamples_preserves.
  - split; [constructor | reflexivity].
  - intros st sample. apply processSample_balanced.
Qed.

(** C3. After the last sample nothing more is emitted: whatever the input,
    each frame still on the running stack when the samples run out has, in
    the returned events, one Start more than it has Ends, so that its last
    Start is left without a matching End; every other frame has as many
    Ends as Starts. *)
Theorem convertToTrace_leaves_frames_open samples f :
  (In f (fst (runSamples samples)) ->
   occurrences "start" f (convertToTrace samples) =
     S (occurrences "end" f (convertToTrace samples))) /\
  (~ In f (fst (runSamples samples)) ->
   occurrences "start" f (convertToTrace samples) =
     occurrences "end" f (convertToTrace samples)).
Proof.
  destruct (runSamples_balanced samples) as [Hnd Hc].
  unfold convertToTrace. rewrite Hc. split; intros Hin.
  - rewrite (count_name_once _ _ Hnd Hin). lia.
  - rewrite (count_name_absent _ _ Hin). lia.
Qed.

Lemma convertToTrace_leaves_frames_open_witness :
  In "main" (fst (runSamples main_samples)) /\
  occurrences "start" "main" (convertToTrace main_samples) =
    S (occurrences "end" "main" (convertToTrace main_samples)).
Proof.
  split.
  - vm_compute. now left.
  - apply (proj1 (convertToTrace_leaves_frames_open main_samples "main")).
    vm_compute. now left.
Defined.

(** *** Timestamps are copied, never looked at *)

Lemma closeStale_same_labels sample sample' st st' :
  s_stack sample = s_stack sample' ->
  same_labels st st' ->
  same_labels (closeStale sample st) (closeStale sample' st').
Proof.
  intros Hs. destruct st as [running result], st' as [running' result'].
  intros [Hr Hl]; cbn [fst snd] in *. subst running'.
  revert result result' Hl.
  induction running as [|top running IH] using rev_ind; intros result result' Hl.
  - rewrite !closeStale_nil. now split.
  - rewrite !closeStale_snoc, <- Hs.
    destruct (found top (s_stack sample)); [now split|].
    apply IH. rewrite !map_app, Hl. reflexivity.
Qed.

Lemma openNew_same_labels t t' frames st st' :
  same_labels st st' ->
  same_labels (openNew t frames st) (openNew t' frames st').
Proof.
  revert st st'.
  induction frames as [|func frames IH];
    intros [running result] [running' result'] [Hr Hl]; cbn [fst snd] in *.
  - now split.
  - subst running'. cbn [openNew].
    destruct (found func running); apply IH; split; cbn [fst snd]; trivial.
    unfold push_back. rewrite !map_app, Hl. reflexivity.
Qed.

Lemma fold_processSample_same_labels samples : forall samples' st st',
  map s_stack samples = map s_stack samples' ->
  same_labels st st' ->
  same_labels (fold_left processSample samples st)
              (fold_left processSample samples' st').
Proof.
  induction samples as [|sample samples IH];
    intros [|sample' samples'] st st' Hs Hst; try discriminate Hs.
  - assumption.
  - cbn [map] in Hs. injection Hs as Hs1 Hs2. cbn [fold_left].
    apply IH; [assumption|]. unfold processSample. rewrite <- Hs1.
    now apply openNew_same_labels, closeStale_same_labels.
Qed.

Lemma processSample_appends st sample :
  exists block,
    snd (processSample st sample) = snd st ++ block /\
    Forall (fun e => ts e = s_ts sample) block.
Proof.
  unfold processSample.
  apply (openNew_preserves
           (fun st' => exists block, snd st' = snd st ++ block /\
                         Forall (fun e => ts e = s_ts sample) block)).
  - intros running func result _ (block & Hb & Hts). cbn [snd] in *.
    exists (block ++ [mkEvent (s_ts sample) "start" func]). split.
    + now rewrite Hb, <- app_assoc.
    + apply Forall_app. split; [exact Hts | now constructor].
  - apply (closeStale_preserves
             (fun st' => exists block, snd st' = snd st ++ block /\
                           Forall (fun e => ts e = s_ts sample) block)).
    + intros running top result _ (block & Hb & Hts). cbn [snd] in *.
      exists (block ++ [mkEvent (s_ts sample) "end" top]). split.
      * now rewrite Hb, <- app_assoc.
      * apply Forall_app. split; [exact Hts | now constructor].
    + exists []. split; [now rewrite app_nil_r | constructor].
Qed.

Lemma convertToTrace_extends samples more :
  exists rest,
    convertToTrace (samples ++ more) = convertToTrace samples ++ rest.
Proof.
  induction more as [|sample more IH] using rev_ind.
  - exists []. now rewrite !app_nil_r.
  - destruct IH as (rest & Hr).
    destruct (processSample_appends (runSamples (samples ++ more)) sample)
      as (block & Hb & _).
    exists (rest ++ block). unfold convertToTrace in *.
    now rewrite app_assoc, runSamples_snoc, Hb, Hr, <- app_assoc.
Qed.

(** C5, as the code has it.  The timestamps are not inspected: two sample
    sequences with the same stacks, whatever their timestamps and whatever
    the order of these, give events of the same kinds and names in the same
    order.  Nothing is rejected.  The events a sample adds to those of the
    samples before it, which later samples leave as they are, all carry
    that sample's timestamp. *)
Theorem convertToTrace_ignores_timestamps samples samples' :
  map s_stack samples = map s_stack samples' ->
  map label (convertToTrace samples) = map label (convertToTrace samples') /\
  (forall before sample after,
      samples = before ++ sample :: after ->
      exists block rest,
        convertToTrace (before ++ [sample]) =
          convertToTrace before ++ block /\
        convertToTrace samples = convertToTrace before ++ block ++ rest /\
        Forall (fun e => ts e = s_ts sample) block).
Proof.
  intros Hs. split.
  - unfold convertToTrace, runSamples.
    apply (fold_processSample_same_labels samples samples' ([], []) ([], []) Hs).
    now split.
  - intros before sample after ->.
    destruct (processSample_appends (runSamples before) sample)
      as (block & Hb & Hts).
    destruct (convertToTrace_extends (before ++ [sample]) after)
      as (rest & Hr).
    assert (Hone : convertToTrace (before ++ [sample]) =
                   convertToTrace before ++ block).
    { unfold convertToTrace. now rewrite runSamples_snoc. }
    exists block, rest. split; [exact Hone|]. split; [|exact Hts].
    rewrite <- app_assoc in Hr. cbn [app] in Hr.
    now rewrite Hr, Hone, <- app_assoc.
Qed.

Lemma convertToTrace_ignores_timestamps_witness :
  map s_stack backwards_samples = map s_stack forwards_samples /\
  map label (convertToTrace backwards_samples) =
    map label (convertToTrace forwards_samples) /\
  exists block rest,
    convertToTrace ([mkSample 7.5 ["main"]] ++ [mkSample 5 ["main"; "my_fn"]]) =
      convertToTrace [mkSample 7.5 ["main"]] ++ block /\
    convertToTrace backwards_samples =
      convertToTrace [mkSample 7.5 ["main"]] ++ block ++ rest /\
    Forall (fun e => ts e = 5%float) block.
Proof.
  destruct (convertToTrace_ignores_timestamps backwards_samples
              forwards_samples eq_refl) as [Hl Hb].
  split; [reflexivity|]. split; [exact Hl|].
  exact (Hb [mkSample 7.5 ["main"]] (mkSample 5 ["main"; "my_fn"]) []
           eq_refl).
Defined.

(** C5, as the specification has it, fails: the second sample below is
    earlier than the first, and the synthesizer returns events for both,
    the later event stamped with the earlier time. *)
Lemma convertToTrace_accepts_backwards_samples :
  nondecreasing backwards_samples = false /\
  convertToTrace backwards_samples =
    [ mkEvent 7.5 "start" "main"; mkEvent 5 "start" "my_fn" ].
Proof. split; reflexivity. Qed.

End SamplerFacts.

Module InstrFacts.
Import Instr InstrSpec.
Local Open Scope Z_scope.
Local Open Scope cmd_scope.

(** *** Strings *)

Lemma append_assoc (a b c : string) : (a +:+ b) +:+ c = a +:+ (b +:+ c).
Proof.
  induction a as [|x a IH]; [reflexivity|].
  change (String x ((a +:+ b) +:+ c) = String x (a +:+ (b +:+ c))).
  now f_equal.
Qed.

Lemma append_empty_r (a : string) : a +:+ "" = a.
Proof.
  induction a as [|x a IH]; [reflexivity|].
  change (String x (a +:+ "") = String x a). now f_equal.
Qed.

Lemma cat_app (l k : list string) : cat (l ++ k) = cat l +:+ cat k.
Proof.
  induction l as [|x l IH]; [reflexivity|].
  change (x +:+ cat (l ++ k) = (x +:+ cat l) +:+ cat k).
  now rewrite IH, append_assoc.
Qed.

Lemma concat_snoc (sep : string) (l : list string) (x : string) :
  String.concat sep (l ++ [x]) =
    match l with
    | [] => x
    | _ :: _ => String.concat sep l +:+ sep +:+ x
    end.
Proof.
  induction l as [|y l IH]; [reflexivity|].
  destruct l as [|z l]; [reflexivity|].
  change (String.concat sep ((y :: z :: l) ++ [x]))
    with (y +:+ sep +:+ String.concat sep ((z :: l) ++ [x])).
  rewrite IH.
  change (String.concat sep (y :: z :: l))
    with (y +:+ sep +:+ String.concat sep (z :: l)).
  now rewrite !append_assoc.
Qed.

(** *** A record rebuilt from its own fields *)

Lemma Instrumentor_eta i :
  mkInstrumentor (m_session i) (m_currentSessionActive i) (m_outputStream i)
    (m_profileCount i) (m_sessionStartUs i) = i.
Proof. now destruct i. Qed.

Section WithEnv.
Variable env : Env.

(** *** Writing to an open stream *)

Lemma put_open p content text w :
  open_at env p content w ->
  put env text w = (fst w, <[p := content +:+ text]> (snd w)).
Proof.
  destruct w as [i fs]. intros (Hs & Hw & Hf); cbn [fst snd] in *.
  unfold put, on_stream, stream_write; cbn [fst snd].
  rewrite Hs; cbn [failed file]. rewrite Hw, Hf; cbn [default fst snd].
  rewrite <- Hs. now rewrite Instrumentor_eta.
Qed.

Lemma open_at_put p content text w :
  open_at env p content w ->
  open_at env p (content +:+ text) (put env text w).
Proof.
  intros H. rewrite (put_open _ _ _ _ H).
  destruct H as (Hs & Hw & Hf). repeat split; cbn [fst snd]; trivial.
  apply lookup_insert_eq.
Qed.

Lemma puts_open p texts : forall content w,
  open_at env p content w ->
  puts env texts w = (fst w, <[p := content +:+ cat texts]> (snd w)).
Proof.
  induction texts as [|text texts IH]; intros content w H.
  - destruct H as (_ & _ & Hf). cbn [puts fold_right cat skip].
    rewrite append_empty_r, (insert_id _ _ _ Hf). now destruct w.
  - change (puts env (text :: texts) w) with (puts env texts (put env text w)).
    rewrite (IH _ _ (open_at_put _ _ text _ H)).
    rewrite (put_open _ _ _ _ H). cbn [fst snd cat fold_right].
    now rewrite insert_insert_eq, append_assoc.
Qed.

(** On a stream whose state flag is set nothing is written. *)
Lemma put_failed text w :
  failed (m_outputStream (fst w)) = true -> put env text w = w.
Proof.
  destruct w as [i fs]; cbn [fst]. intros Hf.
  unfold put, on_stream, stream_write; cbn [fst snd]. rewrite Hf; cbn [fst snd].
  now rewrite Instrumentor_eta.
Qed.

Lemma puts_failed texts w :
  failed (m_outputStream (fst w)) = true -> puts env texts w = w.
Proof.
  intros Hf. induction texts as [|text texts IH]; [reflexivity|].
  change (puts env (text :: texts) w) with (puts env texts (put env text w)).
  now rewrite put_failed.
Qed.

(** *** writeProfile *)

Lemma writeProfile_inactive r w :
  m_currentSessionActive (fst w) = false -> writeProfile env r w = w.
Proof. intros H. unfold writeProfile. now rewrite H. Qed.

(** The body of [writeProfile], as a count update and one list of texts. *)
Lemma writeProfile_active r w :
  m_currentSessionActive (fst w) = true ->
  writeProfile env r w =
    puts env ((if 0 <? m_profileCount (fst w) then [", "] else []) ++
              eventPieces (dur_field (m_sessionStartUs (fst w)) r)
                (sanitize (name r)) (threadId r)
                (ts_field (m_sessionStartUs (fst w)) r))
      (set_profileCount (m_profileCount (fst w) + 1) w).
Proof.
  intros H. unfold writeProfile. rewrite H; cbn [negb].
  destruct (0 <? m_profileCount (fst w)); reflexivity.
Qed.

Lemma open_at_set_profileCount p content n w :
  open_at env p content w -> open_at env p content (set_profileCount n w).
Proof. destruct w as [i fs]. intros H. exact H. Qed.

(** With a session active on an open file, [writeProfile] counts the event
    and appends the separator and the event's text to the file. *)
Lemma writeProfile_open p content r w :
  m_currentSessionActive (fst w) = true ->
  open_at env p content w ->
  writeProfile env r w =
    (fst (set_profileCount (m_profileCount (fst w) + 1) w),
     <[p := content +:+ separator (m_profileCount (fst w)) +:+
              eventText (m_sessionStartUs (fst w)) r]> (snd w)).
Proof.
  intros Ha Ho. rewrite (writeProfile_active _ _ Ha).
  rewrite (puts_open p _ content _ (open_at_set_profileCount _ _ _ _ Ho)).
  rewrite cat_app. destruct w as [i fs]; cbn [fst snd set_profileCount].
  unfold separator, eventText, eventJson.
  destruct (0 <? m_profileCount i); reflexivity.
Qed.

(** C6. While no session is active, [endSession] and [writeProfile] leave
    the Instrumentor (active flag, profile count, baseline, stream) and
    every file as they were; so however many intervals are submitted
    meanwhile, no event is written. *)
Theorem inactive_session_noop w :
  m_currentSessionActive (fst w) = false ->
  endSession env w = w /\
  (forall r, writeProfile env r w = w) /\
  (forall rs, record_all env rs w = w).
Proof.
  intros H. split; [|split].
  - unfold endSession. now rewrite H.
  - intros r. now apply writeProfile_inactive.
  - intros rs. induction rs as [|r rs IH]; [reflexivity|].
    cbn [record_all fold_left]. rewrite (writeProfile_inactive _ _ H).
    exact IH.
Qed.

(** *** Sanitizing a name *)

Lemma sanitize_length s : String.length (sanitize s) = String.length s.
Proof.
  induction s as [|c s IH]; [reflexivity|].
  cbn [sanitize replace String.length] in *. now f_equal.
Qed.

Lemma sanitize_get s : forall i,
  String.get i (sanitize s) =
    option_map (fun c => if Ascii.eqb c dquote then squote else c)
      (String.get i s).
Proof.
  induction s as [|c s IH]; intros i; [reflexivity|].
  destruct i as [|i]; [reflexivity|]. exact (IH i).
Qed.

Lemma sanitize_no_dquote s i : String.get i (sanitize s) <> Some dquote.
Proof.
  rewrite sanitize_get. destruct (String.get i s) as [c|]; [|discriminate].
  cbn [option_map]. destruct (Ascii.eqb_spec c dquote) as [->|Hne].
  - discriminate.
  - congruence.
Qed.

(** C8. Whatever the name of a recorded interval, the name written between
    the quotes of the [name] field is the name with a single-quote at every
    position where it had a double-quote and its other characters as they
    were; no double-quote is left in it, escaped or not. *)
Theorem writeProfile_sanitizes_name p content r w :
  m_currentSessionActive (fst w) = true ->
  open_at env p content w ->
  snd (writeProfile env r w) !! p =
    Some (content +:+ separator (m_profileCount (fst w)) +:+
          eventJson (dur_field (m_sessionStartUs (fst w)) r)
            (sanitize (name r)) (threadId r)
            (ts_field (m_sessionStartUs (fst w)) r)) /\
  String.length (sanitize (name r)) = String.length (name r) /\
  (forall i, String.get i (name r) = Some dquote ->
             String.get i (sanitize (name r)) = Some squote) /\
  (forall i c, String.get i (name r) = Some c -> c <> dquote ->
               String.get i (sanitize (name r)) = Some c) /\
  (forall i, String.get i (sanitize (name r)) <> Some dquote).
Proof.
  intros Ha Ho. repeat split.
  - rewrite (writeProfile_open _ _ _ _ Ha Ho). cbn [snd].
    apply lookup_insert_eq.
  - apply sanitize_length.
  - intros i Hi. now rewrite sanitize_get, Hi.
  - intros i c Hi Hc. rewrite sanitize_get, Hi. cbn [option_map].
    destruct (Ascii.eqb_spec c dquote); congruence.
  - intros i. apply sanitize_no_dquote.
Qed.

(** *** Unsigned subtraction *)

Lemma u64_range z : 0 <= u64 z < 2 ^ 64.
Proof. unfold u64. apply Z.mod_pos_bound. reflexivity. Qed.

Lemma u64_sub a b :
  0 <= a < 2 ^ 64 -> 0 <= b < 2 ^ 64 ->
  u64 (a - b) = if a <? b then a - b + 2 ^ 64 else a - b.
Proof.
  intros Ha Hb. unfold u64. destruct (Z.ltb_spec a b).
  - symmetry. apply Z.mod_unique with (q := -1); lia.
  - apply Z.mod_small. lia.
Qed.

Lemma dur_field_eq base r : dur_field base r = u64 (endUs r - startUs r).
Proof.
  unfold dur_field, u64. rewrite <- Zminus_mod. f_equal. lia.
Qed.

(** C10. The baseline is subtracted in unsigned 64-bit arithmetic.  For an
    interval that starts before the baseline the [ts] written is
    [startUs - base + 2^64], and when the interval ends before it starts
    the [dur] written is [endUs - startUs + 2^64]: the values wrap, they
    are never negative and the interval is not refused. *)
Theorem writeProfile_wraps_modulo_2_64 p content r w :
  m_currentSessionActive (fst w) = true ->
  open_at env p content w ->
  0 <= startUs r < 2 ^ 64 ->
  0 <= endUs r < 2 ^ 64 ->
  0 <= m_sessionStartUs (fst w) < 2 ^ 64 ->
  let base := m_sessionStartUs (fst w) in
  let ts := if startUs r <? base
            then startUs r - base + 2 ^ 64 else startUs r - base in
  let dur := if endUs r <? startUs r
             then endUs r - startUs r + 2 ^ 64 else endUs r - startUs r in
  snd (writeProfile env r w) !! p =
    Some (content +:+ separator (m_profileCount (fst w)) +:+
          eventJson dur (sanitize (name r)) (threadId r) ts) /\
  0 <= ts < 2 ^ 64 /\ 0 <= dur < 2 ^ 64.
Proof.
  intros Ha Ho Hs He Hb base ts dur.
  assert (Hts : ts_field base r = ts).
  { unfold ts_field. now apply u64_sub. }
  assert (Hdur : dur_field base r = dur).
  { rewrite dur_field_eq. now apply u64_sub. }
  split; [|split].
  - rewrite (writeProfile_open _ _ _ _ Ha Ho). cbn [snd].
    rewrite lookup_insert_eq. unfold eventText. fold base.
    now rewrite Hts, Hdur.
  - rewrite <- Hts. apply u64_range.
  - rewrite <- Hdur. unfold dur_field. apply u64_range.
Qed.

(** *** Sessions *)

Lemma endSession_inactive w :
  m_currentSessionActive (fst (endSession env w)) = false.
Proof.
  unfold endSession.
  destruct (m_currentSessionActive (fst w)) eqn:H; [reflexivity | exact H].
Qed.

Lemma stream_close_file s : file (fst (stream_close s)) = None.
Proof.
  destruct s as [os fs]. unfold stream_close.
  destruct (file os); reflexivity.
Qed.

Lemma endSession_stream_closed w :
  closed_when_inactive w ->
  file (m_outputStream (fst (endSession env w))) = None.
Proof.
  intros Hc. unfold endSession.
  destruct (m_currentSessionActive (fst w)) eqn:H; cbn [negb].
  - unfold seq, on_stream; cbn [fst snd m_outputStream set_active
      set_profileCount set_sessionStartUs].
    apply stream_close_file.
  - now apply Hc.
Qed.

(** [beginSession] on an active session is [beginSession] after the whole
    of [endSession]. *)
Lemma beginSession_after_end name p clock w :
  beginSession env name p clock w =
  beginSession env name p clock (endSession env w).
Proof.
  unfold beginSession, seq. rewrite endSession_inactive.
  destruct (m_currentSessionActive (fst w)) eqn:H; [reflexivity|].
  unfold endSession. now rewrite H.
Qed.

Lemma session_end p base texts w :
  session_at env p base texts w ->
  endSession env w =
    (mkInstrumentor (m_session (fst w)) false (mkStream None false) 0 0,
     <[p := (header +:+ String.concat ", " texts) +:+ footer]> (snd w)).
Proof.
  intros (Ha & _ & _ & Ho). unfold endSession. rewrite Ha; cbn [negb].
  unfold writeFooter, flush, skip, seq.
  rewrite (put_open _ _ _ _ Ho).
  destruct Ho as (Hs & _ & _).
  unfold on_stream, stream_close; cbn. now rewrite Hs.
Qed.

Lemma beginSession_fresh name p clock w :
  m_currentSessionActive (fst w) = false ->
  file (m_outputStream (fst w)) = None ->
  openable env p = true ->
  writable env p = true ->
  beginSession env name p clock w =
    (mkInstrumentor (mkSession name) true (mkStream (Some p) false) 0
       (nowUs clock),
     <[p := header]> (snd w)).
Proof.
  intros Ha Hf Hop Hwr. unfold beginSession, seq. rewrite Ha.
  set (w1 := on_stream (stream_open env p) w).
  assert (Hw1 : open_at env p "" w1).
  { unfold w1, on_stream, stream_open; cbn [fst snd].
    rewrite Hf, Hop. repeat split; cbn [fst snd m_outputStream]; trivial.
    apply lookup_insert_eq. }
  unfold writeHeader, flush, skip, seq.
  rewrite (put_open _ _ _ _ Hw1).
  unfold w1, on_stream, stream_open; cbn [fst snd]. rewrite Hf, Hop.
  cbn. now rewrite insert_insert_eq.
Qed.

Lemma session_begin name p clock w :
  closed_when_inactive w ->
  openable env p = true ->
  writable env p = true ->
  session_at env p (nowUs clock) [] (beginSession env name p clock w) /\
  forall q, q <> p ->
    snd (beginSession env name p clock w) !! q = snd (endSession env w) !! q.
Proof.
  intros Hc Hop Hwr. rewrite beginSession_after_end.
  rewrite (beginSession_fresh name p clock (endSession env w)
             (endSession_inactive w) (endSession_stream_closed w Hc) Hop Hwr).
  split.
  - repeat split; cbn [fst snd]; trivial. apply lookup_insert_eq.
  - intros q Hq. cbn [snd]. now apply lookup_insert_ne.
Qed.

Lemma session_writeProfile p base texts r w :
  session_at env p base texts w ->
  session_at env p base (texts ++ [eventText base r]) (writeProfile env r w) /\
  forall q, q <> p -> snd (writeProfile env r w) !! q = snd w !! q.
Proof.
  intros (Ha & Hb & Hn & Ho).
  rewrite (writeProfile_open _ _ _ _ Ha Ho). split.
  - destruct Ho as (Hs & Hw & Hf).
    repeat split; cbn [fst snd set_profileCount m_currentSessionActive
                        m_sessionStartUs m_profileCount m_outputStream];
      trivial.
    + rewrite Hn, length_app. cbn [length]. lia.
    + rewrite lookup_insert_eq. f_equal. rewrite Hn, Hb, concat_snoc.
      unfold separator. destruct texts as [|t texts].
      * change (0 <? Z.of_nat (length (@nil string))) with false.
        cbn [String.concat]. now rewrite !append_empty_r.
      * assert (Hpos : (0 <? Z.of_nat (length (t :: texts))) = true).
        { apply Z.ltb_lt. cbn [length]. lia. }
        rewrite Hpos. now rewrite !append_assoc.
  - intros q Hq. cbn [snd]. now apply lookup_insert_ne.
Qed.

Lemma session_record_all p base rs : forall texts w,
  session_at env p base texts w ->
  session_at env p base (texts ++ map (eventText base) rs)
    (record_all env rs w) /\
  forall q, q <> p -> snd (record_all env rs w) !! q = snd w !! q.
Proof.
  induction rs as [|r rs IH]; intros texts w H.
  - cbn [map record_all fold_left]. rewrite app_nil_r. now split.
  - destruct (session_writeProfile p base texts r w H) as [H1 F1].
    destruct (IH _ _ H1) as [H2 F2].
    change (record_all env (r :: rs) w)
      with (record_all env rs (writeProfile env r w)).
    split.
    + cbn [map]. now rewrite <- app_assoc in H2.
    + intros q Hq. now rewrite (F2 q Hq), (F1 q Hq).
Qed.

(** Every state the three methods can reach from the constructor's has
    its stream closed between sessions. *)
Lemma closed_when_inactive_reachable w :
  closed_when_inactive w ->
  (forall name p clock, closed_when_inactive (beginSession env name p clock w)) /\
  closed_when_inactive (endSession env w) /\
  (forall r, closed_when_inactive (writeProfile env r w)).
Proof.
  intros Hc. split; [|split].
  - intros name p clock Hin. exfalso. revert Hin.
    unfold beginSession, seq; cbn. discriminate.
  - intros _. now apply endSession_stream_closed.
  - intros r. destruct (m_currentSessionActive (fst w)) eqn:Ha.
    + intros Hin. exfalso. revert Hin.
      rewrite (writeProfile_active _ _ Ha).
      assert (Hp : forall texts w', m_currentSessionActive (fst (puts env texts w'))
                              = m_currentSessionActive (fst w')).
      { induction texts as [|t texts IH]; intros w'; [reflexivity|].
        change (puts env (t :: texts) w') with (puts env texts (put env t w')).
        now rewrite IH. }
      rewrite Hp. cbn. rewrite Ha. discriminate.
    + now rewrite (writeProfile_inactive _ _ Ha).
Qed.

(** *** A sink that cannot be opened or written *)

Lemma beginSession_unavailable name p clock w :
  m_currentSessionActive (fst w) = false ->
  file (m_outputStream (fst w)) = None ->
  openable env p && writable env p = false ->
  beginSession env name p clock w =
    (mkInstrumentor (mkSession name) true
       (mkStream (if openable env p then Some p else None) true) 0
       (nowUs clock),
     if openable env p then <[p := ""]> (snd w) else snd w).
Proof.
  intros Ha Hf Hbad.
  unfold beginSession, writeHeader, flush, skip, seq. rewrite Ha.
  unfold put, on_stream, stream_open, stream_write; cbn [fst snd].
  rewrite Hf. destruct (openable env p); cbn [andb] in Hbad.
  - cbn [fst snd m_outputStream failed file]. rewrite Hbad. reflexivity.
  - reflexivity.
Qed.

Lemma writeProfile_failed r w :
  m_currentSessionActive (fst w) = true ->
  failed (m_outputStream (fst w)) = true ->
  writeProfile env r w = set_profileCount (m_profileCount (fst w) + 1) w.
Proof.
  intros Ha Hf. rewrite (writeProfile_active _ _ Ha).
  now apply puts_failed.
Qed.

Lemma record_all_failed rs : forall w,
  m_currentSessionActive (fst w) = true ->
  failed (m_outputStream (fst w)) = true ->
  let w' := record_all env rs w in
  m_currentSessionActive (fst w') = true /\
  failed (m_outputStream (fst w')) = true /\
  m_profileCount (fst w') = m_profileCount (fst w) + Z.of_nat (length rs) /\
  snd w' = snd w.
Proof.
  induction rs as [|r rs IH]; intros w Ha Hf.
  - cbn. repeat split; trivial. lia.
  - change (record_all env (r :: rs) w)
      with (record_all env rs (writeProfile env r w)).
    rewrite (writeProfile_failed _ _ Ha Hf).
    destruct (IH (set_profileCount (m_profileCount (fst w) + 1) w) Ha Hf)
      as (Ha' & Hf' & Hn' & Hs').
    cbv zeta. repeat split; trivial.
    rewrite Hn'. cbn [fst set_profileCount m_profileCount length]. lia.
Qed.

Lemma endSession_failed w :
  failed (m_outputStream (fst w)) = true -> snd (endSession env w) = snd w.
Proof.
  intros Hf. unfold endSession.
  destruct (m_currentSessionActive (fst w)); [|reflexivity]. cbn [negb].
  unfold writeFooter, flush, skip, seq. rewrite (put_failed _ _ Hf).
  unfold on_stream, stream_close; cbn [fst snd set_active set_profileCount
    set_sessionStartUs].
  destruct (file (m_outputStream (fst w))); reflexivity.
Qed.

(** C4, as the code has it.  When the file of a new session cannot be
    opened, or is opened and takes no writes, [beginSession] still marks
    the session active, [writeProfile] still counts every interval, and
    neither the header nor any event nor the footer is written: the files
    are what they were, but for the file being emptied if it could be
    opened.  The methods return nothing, so the caller is told nothing. *)
Theorem sink_failure_is_silent name p clock rs w :
  m_currentSessionActive (fst w) = false ->
  file (m_outputStream (fst w)) = None ->
  openable env p && writable env p = false ->
  let w1 := beginSession env name p clock w in
  let w2 := record_all env rs w1 in
  let w3 := endSession env w2 in
  m_currentSessionActive (fst w1) = true /\
  m_profileCount (fst w2) = Z.of_nat (length rs) /\
  snd w1 = (if openable env p then <[p := ""]> (snd w) else snd w) /\
  snd w2 = snd w1 /\
  snd w3 = snd w1.
Proof.
  intros Ha Hf Hbad w1 w2 w3.
  pose proof (beginSession_unavailable name p clock w Ha Hf Hbad) as B.
  fold w1 in B.
  assert (A1 : m_currentSessionActive (fst w1) = true) by now rewrite B.
  assert (F1 : failed (m_outputStream (fst w1)) = true) by now rewrite B.
  destruct (record_all_failed rs w1 A1 F1) as (A2 & F2 & N2 & S2).
  fold w2 in A2, F2, N2, S2.
  repeat split; trivial.
  - now rewrite B.
  - unfold w3. now rewrite (endSession_failed _ F2).
Qed.

(** *** Timers *)

Lemma stop_again t clock thread s clock' thread' :
  let r := stop env t clock thread s in
  stop env (fst r) clock' thread' (snd r) = r /\
  Timer_delete env (fst r) clock' thread' (snd r) = snd r.
Proof.
  unfold Timer_delete, stop. destruct (m_stopped t) eqn:Hs; cbn [fst snd].
  - now rewrite Hs.
  - cbn [m_stopped negb]. now split.
Qed.

Lemma running_timers_insert_fresh (m : gmap nat InstrumentationTimer) id t :
  m !! id = None ->
  m_stopped t = false ->
  size (running_timers (<[id := t]> m)) = S (size (running_timers m)).
Proof.
  intros Hm Ht. unfold running_timers.
  rewrite map_filter_insert_True by exact Ht.
  apply map_size_insert_None, map_lookup_filter_None_2. now left.
Qed.

Lemma running_timers_delete_running (m : gmap nat InstrumentationTimer) id t :
  m !! id = Some t ->
  m_stopped t = false ->
  S (size (running_timers (delete id m))) = size (running_timers m).
Proof.
  intros Hm Ht. unfold running_timers.
  assert (Hin : filter (fun kv => m_stopped (snd kv) = false) m !! id = Some t).
  { now apply map_lookup_filter_Some_2. }
  rewrite map_filter_delete, map_size_delete_Some by eauto.
  assert (size (filter (fun kv => m_stopped (snd kv) = false) m) <> 0%nat).
  { apply (map_size_ne_0_lookup_2 _ id). eauto. }
  lia.
Qed.

Lemma running_timers_delete_stopped (m : gmap nat InstrumentationTimer) id t :
  m !! id = Some t ->
  m_stopped t = true ->
  running_timers (delete id m) = running_timers m.
Proof.
  intros Hm Ht. unfold running_timers.
  apply map_filter_delete_not. intros y Hy. cbn [snd]. congruence.
Qed.

Lemma running_timers_stop (m : gmap nat InstrumentationTimer) id t t' :
  m !! id = Some t ->
  m_stopped t = false ->
  m_stopped t' = true ->
  S (size (running_timers (<[id := t']> m))) = size (running_timers m).
Proof.
  intros Hm Ht Ht'.
  rewrite <- (running_timers_delete_running m id t Hm Ht).
  unfold running_timers. rewrite map_filter_insert_False; [reflexivity|].
  cbn [snd]. congruence.
Qed.

(** Each step keeps the account: intervals submitted so far, plus timers
    still running, is what it was, plus one if the step constructs. *)
Lemma exec_account op pr pr' :
  exec env op pr = Some pr' ->
  (length (snd (traced pr')) + size (running_timers (timers pr')) =
   length (snd (traced pr)) + size (running_timers (timers pr)) +
   (if is_construct op then 1 else 0))%nat.
Proof.
  destruct op as [id name clock | id clock thread | id clock thread
                  | name filepath clock | ]; cbn [exec is_construct].
  - destruct (timers pr !! id) eqn:Hid; [discriminate|].
    intros [= <-]. cbn [traced timers].
    rewrite (running_timers_insert_fresh _ _ _ Hid) by reflexivity. lia.
  - destruct (timers pr !! id) as [t|] eqn:Hid; [|discriminate].
    unfold stop. destruct (m_stopped t) eqn:Ht; intros [= <-];
      cbn [traced timers].
    + rewrite (insert_id _ _ _ Hid). lia.
    + cbn [submit snd]. rewrite length_app. cbn [length].
      pose proof (running_timers_stop (timers pr) id t
                    (mkTimer (m_name t) true (m_startUs t)) Hid Ht eq_refl).
      lia.
  - destruct (timers pr !! id) as [t|] eqn:Hid; [|discriminate].
    intros [= <-]. cbn [traced timers]. unfold Timer_delete, stop.
    destruct (m_stopped t) eqn:Ht; cbn [negb snd].
    + rewrite (running_timers_delete_stopped _ _ _ Hid Ht). lia.
    + cbn [submit snd]. rewrite length_app. cbn [length].
      pose proof (running_timers_delete_running _ _ _ Hid Ht). lia.
  - intros [= <-]. cbn [traced timers snd]. lia.
  - intros [= <-]. cbn [traced timers snd]. lia.
Qed.

Lemma run_account ops : forall pr pr',
  run env ops pr = Some pr' ->
  (length (snd (traced pr')) + size (running_timers (timers pr')) =
   length (snd (traced pr)) + size (running_timers (timers pr)) +
   constructions ops)%nat.
Proof.
  induction ops as [|op ops IH]; intros pr pr'; cbn [run].
  - intros [= <-]. unfold constructions. cbn [List.filter length]. lia.
  - destruct (exec env op pr) as [pr1|] eqn:Hop; [|discriminate].
    intros Hrun. apply IH in Hrun. apply exec_account in Hop.
    unfold constructions in *. cbn [List.filter].
    destruct (is_construct op); cbn [length]; lia.
Qed.

(** C9. A second [stop], and the destructor after a [stop], change neither
    the timer nor the world and submit nothing.  Hence in any program that
    starts and ends with no live timer, whatever its calls to [stop] and
    however its timers nest, the intervals submitted to the Instrumentor
    are as many as the timers constructed. *)
Theorem timers_submit_exactly_once :
  (forall t clock thread s clock' thread',
      let r := stop env t clock thread s in
      stop env (fst r) clock' thread' (snd r) = r /\
      Timer_delete env (fst r) clock' thread' (snd r) = snd r) /\
  (forall ops pr0 pr,
      timers pr0 = ∅ ->
      run env ops pr0 = Some pr ->
      timers pr = ∅ ->
      length (snd (traced pr)) =
        (length (snd (traced pr0)) + constructions ops)%nat).
Proof.
  split.
  - intros. apply stop_again.
  - intros ops pr0 pr H0 Hrun H1. apply run_account in Hrun.
    rewrite H0, H1 in Hrun. unfold running_timers in Hrun.
    rewrite map_filter_empty, map_size_empty in Hrun. lia.
Qed.

End WithEnv.

(** *** The theorems at work *)

Lemma inactive_session_noop_witness :
  m_currentSessionActive (fst fresh_world) = false /\
  endSession harsh_env fresh_world = fresh_world /\
  (forall r, writeProfile harsh_env r fresh_world = fresh_world) /\
  (forall rs, record_all harsh_env rs fresh_world = fresh_world).
Proof.
  split; [reflexivity|].
  apply (inactive_session_noop harsh_env fresh_world). reflexivity.
Defined.

Lemma demo_world_active : m_currentSessionActive (fst demo_world) = true.
Proof. reflexivity. Defined.

Lemma demo_world_open : open_at harsh_env "trace.json" header demo_world.
Proof. repeat split; vm_compute; reflexivity. Defined.

(** A session begun and ended at once leaves the empty envelope. *)
Example begin_then_end_envelope :
  snd (endSession harsh_env demo_world) !! "trace.json" =
    Some (header +:+ footer).
Proof. vm_compute. reflexivity. Qed.

(** The two nested timers of [demo_program] leave a document of two
    events, the inner timer's first, separated by a comma and a space. *)
Example demo_program_document :
  snd (fst (traced demo_final)) !! "trace.json" =
    Some (document 100 [ mkProfileResult "inner" 120 130 7;
                         mkProfileResult "outer" 110 150 7 ]).
Proof. vm_compute. reflexivity. Qed.

Lemma writeProfile_sanitizes_name_witness :
  m_currentSessionActive (fst demo_world) = true /\
  open_at harsh_env "trace.json" header demo_world /\
  String.get 4 (name early_interval) = Some dquote /\
  String.get 4 (sanitize (name early_interval)) = Some squote.
Proof.
  split; [exact demo_world_active|]. split; [exact demo_world_open|].
  split; [reflexivity|].
  destruct (writeProfile_sanitizes_name harsh_env "trace.json" header
              early_interval demo_world demo_world_active demo_world_open)
    as (_ & _ & Hq & _).
  apply Hq. reflexivity.
Defined.

Lemma writeProfile_wraps_modulo_2_64_witness :
  m_currentSessionActive (fst demo_world) = true /\
  open_at harsh_env "trace.json" header demo_world /\
  startUs early_interval < m_sessionStartUs (fst demo_world) /\
  snd (writeProfile harsh_env early_interval demo_world) !! "trace.json" =
    Some (header +:+
          eventJson 110 (sanitize (name early_interval)) 7
            18446744073709551566).
Proof.
  split; [exact demo_world_active|]. split; [exact demo_world_open|].
  split; [reflexivity|].
  apply (writeProfile_wraps_modulo_2_64 harsh_env "trace.json" header
           early_interval demo_world demo_world_active demo_world_open);
    vm_compute; split; congruence.
Defined.

Lemma sink_failure_is_silent_witness :
  m_currentSessionActive (fst fresh_world) = false /\
  file (m_outputStream (fst fresh_world)) = None /\
  openable harsh_env bad_path && writable harsh_env bad_path = false /\
  let w1 := beginSession harsh_env "Demo" bad_path 100 fresh_world in
  let w2 := record_all harsh_env [first_interval; second_interval] w1 in
  m_currentSessionActive (fst w1) = true /\
  m_profileCount (fst w2) = 2 /\
  snd (endSession harsh_env w2) = snd w1.
Proof.
  do 3 (split; [reflexivity|]).
  destruct (sink_failure_is_silent harsh_env "Demo" bad_path 100
              [first_interval; second_interval] fresh_world
              eq_refl eq_refl eq_refl)
    as (Ha & Hn & _ & _ & Hs).
  split; [exact Ha|]. split; [exact Hn | exact Hs].
Defined.

(** C4, as the specification has it, fails.  A session is begun on a path
    that cannot be opened, and another on a file that takes no writes; an
    interval is submitted and the session is ended.  Every call returns,
    the session counts as active and the interval as written, and in the
    end no file holds a byte. *)
Lemma sink_failure_drops_trace_data :
  (let w1 := beginSession harsh_env "Demo" bad_path 100 fresh_world in
   let w2 := writeProfile harsh_env first_interval w1 in
   let w3 := endSession harsh_env w2 in
   openable harsh_env bad_path = false /\
   m_currentSessionActive (fst w1) = true /\
   m_profileCount (fst w2) = 1 /\
   snd w3 = ∅) /\
  (let w1 := beginSession harsh_env "Demo" full_path 100 fresh_world in
   let w2 := writeProfile harsh_env first_interval w1 in
   let w3 := endSession harsh_env w2 in
   writable harsh_env full_path = false /\
   m_currentSessionActive (fst w1) = true /\
   m_profileCount (fst w2) = 1 /\
   snd w3 = {[ full_path := "" ]}).
Proof. repeat split; vm_compute; reflexivity. Qed.

Lemma timers_submit_exactly_once_witness :
  timers demo_start = ∅ /\
  run harsh_env demo_program demo_start = Some demo_final /\
  timers demo_final = ∅ /\
  length (snd (traced demo_final)) =
    (length (snd (traced demo_start)) + constructions demo_program)%nat.
Proof.
  assert (Hrun : run harsh_env demo_program demo_start = Some demo_final)
    by (vm_compute; reflexivity).
  assert (Hend : timers demo_final = ∅) by (vm_compute; reflexivity).
  split; [reflexivity|]. split; [exact Hrun|]. split; [exact Hend|].
  exact (proj2 (timers_submit_exactly_once harsh_env)
           demo_program demo_start demo_final eq_refl Hrun Hend).
Defined.

End InstrFacts.

(** ** More on the synthesizer *)

Module SamplerMore.
Import Sampler SamplerSpec SamplerFacts Replay.
Local Open Scope list_scope.

(** X1. The running stack never holds a frame twice. *)
Theorem running_stack_NoDup samples : NoDup (fst (runSamples samples)).
Proof. apply runSamples_balanced. Qed.

(** *** What a sample leaves on the running stack *)

Lemma openNew_running_grows t frames : forall st x,
  In x (fst st) -> In x (fst (openNew t frames st)).
Proof.
  induction frames as [|func frames IH]; intros [running result] x Hx.
  - exact Hx.
  - cbn [openNew]. destruct (found func running); apply IH; cbn [fst] in *.
    + exact Hx.
    + unfold push_back. apply in_or_app. now left.
Qed.

Lemma openNew_opens_all t frames : forall st f,
  In f frames -> In f (fst (openNew t frames st)).
Proof.
  induction frames as [|func frames IH]; intros [running result] f Hf.
  - destruct Hf.
  - cbn [openNew]. destruct Hf as [<-|Hf].
    + destruct (found func running) eqn:Hfound;
        apply openNew_running_grows; cbn [fst].
      * now apply found_In.
      * unfold push_back. apply in_or_app. right. now left.
    + destruct (found func running); now apply IH.
Qed.

Lemma closeStale_top sample st top :
  back (fst (closeStale sample st)) = Some top -> In top (s_stack sample).
Proof.
  destruct st as [running result]. revert result.
  induction running as [|x running IH] using rev_ind; intros result.
  - rewrite closeStale_nil. discriminate.
  - rewrite closeStale_snoc.
    destruct (found x (s_stack sample)) eqn:Hf.
    + cbn [fst]. rewrite back_snoc. intros [= <-]. now apply found_In.
    + apply IH.
Qed.

Lemma openNew_top t stack frames : forall st,
  (forall f, In f frames -> In f stack) ->
  (forall top, back (fst st) = Some top -> In top stack) ->
  forall top, back (fst (openNew t frames st)) = Some top -> In top stack.
Proof.
  induction frames as [|func frames IH]; intros [running result] Hsub Htop.
  - exact Htop.
  - cbn [openNew]. destruct (found func running); apply IH.
    + intros f Hf. apply Hsub. now right.
    + exact Htop.
    + intros f Hf. apply Hsub. now right.
    + cbn [fst]. unfold push_back. intros top. rewrite back_snoc.
      intros [= <-]. apply Hsub. now left.
Qed.

(** X2. After a sample every frame of its stack is on the running stack,
    and the frame on top of the running stack, if there is one, is a frame
    of the sample. *)
Theorem processSample_running_stack st sample :
  (forall f, In f (s_stack sample) -> In f (fst (processSample st sample))) /\
  (forall top, back (fst (processSample st sample)) = Some top ->
               In top (s_stack sample)).
Proof.
  unfold processSample. split.
  - intros f Hf. now apply openNew_opens_all.
  - apply openNew_top.
    + trivial.
    + intros top. apply closeStale_top.
Qed.

Lemma openNew_nothing_new t frames st :
  (forall f, In f frames -> In f (fst st)) -> openNew t frames st = st.
Proof.
  destruct st as [running result]. cbn [fst].
  induction frames as [|func frames IH]; intros Hall; [reflexivity|].
  cbn [openNew]. assert (Hf : found func running = true).
  { apply found_In, Hall. now left. }
  rewrite Hf. apply IH. intros f Hin. apply Hall. now right.
Qed.

Lemma closeStale_nothing_stale sample st :
  (forall top, back (fst st) = Some top -> In top (s_stack sample)) ->
  closeStale sample st = st.
Proof.
  destruct st as [running result]. cbn [fst]. intros Htop.
  rewrite closeStale_eq. destruct (back running) as [top|]; [|reflexivity].
  specialize (Htop top eq_refl). apply found_In in Htop. now rewrite Htop.
Qed.

(** X3. A sample seen twice in a row changes nothing the second time: no
    event is emitted and the running stack stays. *)
Theorem processSample_twice st sample :
  processSample (processSample st sample) sample = processSample st sample.
Proof.
  destruct (processSample_running_stack st sample) as [Hall Htop].
  unfold processSample at 1.
  rewrite (closeStale_nothing_stale _ _ Htop).
  now apply openNew_nothing_new.
Qed.

(** *** Calls and returns *)

Lemma openNew_fresh t frames : forall running result,
  NoDup (running ++ frames) ->
  openNew t frames (running, result) =
    (running ++ frames, result ++ map (mkEvent t "start") frames).
Proof.
  induction frames as [|func frames IH]; intros running result Hnd.
  - cbn [openNew map]. now rewrite !app_nil_r.
  - cbn [openNew map].
    assert (Hf : found func running = false).
    { apply found_not_In. intros Hin.
      apply NoDup_app in Hnd as (_ & Hdis & _).
      apply (Hdis func); [now apply list_elem_of_In | now left]. }
    rewrite Hf. unfold push_back.
    rewrite IH by (now rewrite <- app_assoc).
    now rewrite <- !app_assoc.
Qed.

(** X4. A call: when the sample's stack is the running stack with new
    frames on top, none of them seen before, the sample emits one Start for
    each new frame, outermost first, no End, and the running stack becomes
    the sample's stack. *)
Theorem processSample_call running new result t :
  NoDup (running ++ new) ->
  processSample (running, result) (mkSample t (running ++ new)) =
    (running ++ new, result ++ map (mkEvent t "start") new).
Proof.
  intros Hnd. unfold processSample; cbn [s_ts s_stack].
  rewrite closeStale_nothing_stale.
  - assert (Hgo : forall pre, openNew t (pre ++ new) (running, result) =
                         openNew t new (openNew t pre (running, result))).
    { clear. intros pre. generalize (running, result).
      induction pre as [|x pre IH]; intros [r e]; [reflexivity|].
      cbn [app openNew]. destruct (found x r); apply IH. }
    rewrite Hgo, (openNew_nothing_new t running (running, result)) by trivial.
    now apply openNew_fresh.
  - cbn [fst s_stack]. intros top Hb. apply in_or_app. left.
    apply back_Some in Hb. rewrite Hb. apply in_or_app. right. now left.
Qed.

Lemma processSample_call_witness :
  NoDup (["main"] ++ ["f"; "g"]) /\
  processSample (["main"], []) (mkSample 2 (["main"] ++ ["f"; "g"])) =
    (["main"] ++ ["f"; "g"],
     [] ++ map (mkEvent 2 "start") ["f"; "g"]).
Proof.
  assert (Hnd : NoDup (["main"] ++ ["f"; "g"])).
  { apply NoDup_ListNoDup. repeat constructor; cbn; intuition discriminate. }
  split; [exact Hnd|].
  apply (processSample_call ["main"] ["f"; "g"] [] 2 Hnd).
Defined.

Lemma closeStale_return sample keep : forall gone result,
  s_stack sample = keep ->
  NoDup (keep ++ gone) ->
  closeStale sample (keep ++ gone, result) =
    (keep, result ++ map (mkEvent (s_ts sample) "end") (rev gone)).
Proof.
  intros gone. induction gone as [|x gone IH] using rev_ind;
    intros result Hs Hnd.
  - cbn [rev map]. rewrite !app_nil_r. apply closeStale_nothing_stale.
    cbn [fst]. intros top Hb. rewrite Hs. apply back_Some in Hb.
    rewrite Hb. apply in_or_app. right. now left.
  - rewrite app_assoc, closeStale_snoc.
    assert (Hf : found x (s_stack sample) = false).
    { apply found_not_In. rewrite Hs. intros Hin.
      apply NoDup_app in Hnd as (_ & Hdis & _).
      apply (Hdis x); [now apply list_elem_of_In|].
      apply list_elem_of_In, in_or_app. right. now left. }
    rewrite Hf, IH; trivial.
    + rewrite rev_app_distr. cbn [rev app map]. now rewrite <- app_assoc.
    + rewrite app_assoc in Hnd. now apply NoDup_app in Hnd as (Hnd & _).
Qed.

(** X5. A return: when the sample's stack is the lower part of a running
    stack that holds no frame twice, the sample emits one End for each frame
    above it, innermost first, no Start, and the running stack becomes the
    sample's stack.  A sample with an empty stack closes every frame. *)
Theorem processSample_return keep gone result t :
  NoDup (keep ++ gone) ->
  processSample (keep ++ gone, result) (mkSample t keep) =
    (keep, result ++ map (mkEvent t "end") (rev gone)).
Proof.
  intros Hnd. unfold processSample; cbn [s_ts s_stack].
  rewrite (closeStale_return (mkSample t keep) keep gone result eq_refl Hnd).
  cbn [s_ts]. now apply openNew_nothing_new.
Qed.

Lemma processSample_return_witness :
  NoDup (["main"] ++ ["f"; "g"]) /\
  processSample (["main"] ++ ["f"; "g"], []) (mkSample 3 ["main"]) =
    (["main"], [] ++ map (mkEvent 3 "end") (rev ["f"; "g"])).
Proof.
  assert (Hnd : NoDup (["main"] ++ ["f"; "g"])).
  { apply NoDup_ListNoDup. repeat constructor; cbn; intuition discriminate. }
  split; [exact Hnd|].
  apply (processSample_return ["main"] ["f"; "g"] [] 3 Hnd).
Defined.

(** *** The events as a consumer reads them *)

Lemma replay_app events events' : forall open,
  replay (events ++ events') open =
    match replay events open with
    | Some open' => replay events' open'
    | None => None
    end.
Proof.
  induction events as [|e events IH]; intros open; [reflexivity|].
  cbn [app replay].
  destruct (String.eqb (kind e) "start"); [apply IH|].
  destruct (String.eqb (kind e) "end"); [|reflexivity].
  destruct (back open) as [top|]; [|reflexivity].
  destruct (String.eqb top (name e)); [apply IH | reflexivity].
Qed.

(** X6. The events are well nested: read from the start with an empty
    stack, every End closes the frame opened last and not yet closed, no
    event is of another kind than start and end, and the frames left open
    at the end are the running stack. *)
Theorem convertToTrace_well_nested samples :
  replay (convertToTrace samples) [] = Some (fst (runSamples samples)).
Proof.
  unfold convertToTrace.
  apply (runSamples_preserves (fun st => replay (snd st) [] = Some (fst st))).
  - reflexivity.
  - intros st sample Hst. unfold processSample.
    apply openNew_preserves.
    + clear. intros running func result _ H. cbn [fst snd] in *.
      rewrite replay_app, H. reflexivity.
    + apply closeStale_preserves; [|exact Hst].
      clear. intros running top result _ H. cbn [fst snd] in *.
      rewrite replay_app, H. cbn [replay kind name].
      change (String.eqb "end" "start") with false.
      change (String.eqb "end" "end") with true. cbn match.
      now rewrite back_snoc, String.eqb_refl, pop_back_snoc.
Qed.

(** *** The events sample by sample *)

(** X7. The output is one block of events for each sample, in the order
    of the samples, and every event carries the timestamp of the sample
    whose block it is in. *)
Theorem convertToTrace_blocks samples :
  exists blocks,
    convertToTrace samples = concat blocks /\
    Forall2 (fun sample block => Forall (fun e => ts e = s_ts sample) block)
      samples blocks.
Proof.
  induction samples as [|sample samples IH] using rev_ind.
  - exists []. split; [reflexivity | constructor].
  - destruct IH as (blocks & Hc & Hall).
    destruct (processSample_appends (runSamples samples) sample)
      as (block & Hb & Hts).
    exists (blocks ++ [block]). split.
    + unfold convertToTrace in *. rewrite runSamples_snoc, Hb, Hc.
      rewrite concat_app. cbn [concat]. now rewrite app_nil_r.
    + apply Forall2_app; [exact Hall | now constructor].
Qed.

(** X8. The events of the first samples are not revised by later ones:
    the output for a sequence begins with the output for each of its
    initial parts. *)
Theorem convertToTrace_prefix samples more :
  exists rest,
    convertToTrace (samples ++ more) = convertToTrace samples ++ rest.
Proof.
  induction more as [|sample more IH] using rev_ind.
  - exists []. now rewrite !app_nil_r.
  - destruct IH as (rest & Hr).
    destruct (processSample_appends (runSamples (samples ++ more)) sample)
      as (block & Hb & _).
    exists (rest ++ block). unfold convertToTrace in *.
    now rewrite app_assoc, runSamples_snoc, Hb, Hr, <- app_assoc.
Qed.

End SamplerMore.

(** ** More on the instrumentor *)

Module InstrMore.
Import Instr InstrSpec InstrFacts.
Local Open Scope Z_scope.
Local Open Scope cmd_scope.

Section WithEnv.
Variable env : Env.

(** *** What a write can touch *)

Lemma stream_write_file text s :
  file (fst (stream_write env text s)) = file (fst s).
Proof.
  destruct s as [os fs]. unfold stream_write; cbn [fst].
  destruct (failed os); [reflexivity|].
  destruct (file os) as [p|] eqn:Hf; [|reflexivity].
  destruct (writable env p); [exact Hf | reflexivity].
Qed.

Lemma stream_write_frame text s q :
  file (fst s) <> Some q ->
  snd (stream_write env text s) !! q = snd s !! q.
Proof.
  destruct s as [os fs]. unfold stream_write; cbn [fst snd]. intros Hq.
  destruct (failed os); [reflexivity|].
  destruct (file os) as [p|]; [|reflexivity].
  destruct (writable env p); [|reflexivity].
  cbn [snd]. apply lookup_insert_ne. congruence.
Qed.

Lemma put_fields text w :
  m_session (fst (put env text w)) = m_session (fst w) /\
  m_currentSessionActive (fst (put env text w)) =
    m_currentSessionActive (fst w) /\
  m_profileCount (fst (put env text w)) = m_profileCount (fst w) /\
  m_sessionStartUs (fst (put env text w)) = m_sessionStartUs (fst w) /\
  file (m_outputStream (fst (put env text w))) =
    file (m_outputStream (fst w)).
Proof.
  repeat split; try reflexivity.
  unfold put, on_stream; cbn [fst m_outputStream].
  apply stream_write_file.
Qed.

Lemma put_frame text w q :
  file (m_outputStream (fst w)) <> Some q ->
  snd (put env text w) !! q = snd w !! q.
Proof.
  intros Hq. unfold put, on_stream; cbn [snd].
  now apply stream_write_frame.
Qed.

Lemma puts_fields texts : forall w,
  m_session (fst (puts env texts w)) = m_session (fst w) /\
  m_currentSessionActive (fst (puts env texts w)) =
    m_currentSessionActive (fst w) /\
  m_profileCount (fst (puts env texts w)) = m_profileCount (fst w) /\
  m_sessionStartUs (fst (puts env texts w)) = m_sessionStartUs (fst w) /\
  file (m_outputStream (fst (puts env texts w))) =
    file (m_outputStream (fst w)).
Proof.
  induction texts as [|text texts IH]; intros w.
  - repeat split.
  - change (puts env (text :: texts) w) with (puts env texts (put env text w)).
    destruct (IH (put env text w)) as (H1 & H2 & H3 & H4 & H5).
    destruct (put_fields text w) as (P1 & P2 & P3 & P4 & P5).
    repeat split; congruence.
Qed.

Lemma puts_frame texts q : forall w,
  file (m_outputStream (fst w)) <> Some q ->
  snd (puts env texts w) !! q = snd w !! q.
Proof.
  induction texts as [|text texts IH]; intros w Hq; [reflexivity|].
  change (puts env (text :: texts) w) with (puts env texts (put env text w)).
  rewrite IH.
  - now apply put_frame.
  - destruct (put_fields text w) as (_ & _ & _ & _ & Hf). now rewrite Hf.
Qed.

(** X9. [writeProfile] keeps the session's name, the active flag, the
    baseline and the file the stream is associated with; it adds one to the
    profile count exactly when a session is active, whether or not the
    event could be written. *)
Theorem writeProfile_bookkeeping r w :
  let w' := writeProfile env r w in
  m_session (fst w') = m_session (fst w) /\
  m_currentSessionActive (fst w') = m_currentSessionActive (fst w) /\
  m_sessionStartUs (fst w') = m_sessionStartUs (fst w) /\
  file (m_outputStream (fst w')) = file (m_outputStream (fst w)) /\
  m_profileCount (fst w') =
    m_profileCount (fst w) + (if m_currentSessionActive (fst w) then 1 else 0).
Proof.
  cbv zeta. destruct (m_currentSessionActive (fst w)) eqn:Ha.
  - rewrite (writeProfile_active env _ _ Ha).
    match goal with |- context [puts env ?l ?x] =>
      destruct (puts_fields l x) as (H1 & H2 & H3 & H4 & H5) end.
    rewrite H1, H2, H3, H4, H5. cbn [fst set_profileCount m_session
      m_currentSessionActive m_sessionStartUs m_outputStream m_profileCount].
    now rewrite Ha.
  - rewrite (writeProfile_inactive env _ _ Ha). rewrite Ha.
    repeat split. lia.
Qed.

Lemma endSession_frame w q :
  file (m_outputStream (fst w)) <> Some q ->
  snd (endSession env w) !! q = snd w !! q.
Proof.
  intros Hq. unfold endSession.
  destruct (m_currentSessionActive (fst w)); [|reflexivity]. cbn [negb].
  unfold writeFooter, flush, skip, seq.
  unfold set_sessionStartUs, set_profileCount, set_active; cbn [fst snd].
  unfold on_stream at 1; cbn [fst snd].
  assert (Hc : forall s, snd (stream_close s) = snd s).
  { intros [os fs]. unfold stream_close. destruct (file os); reflexivity. }
  rewrite Hc. cbn [snd]. now apply put_frame.
Qed.

(** X10. [writeProfile] and [endSession] change no file but the one the
    stream is associated with, and [beginSession] none but that one and the
    one it is asked to open. *)
Theorem only_the_session_file_is_written w q :
  file (m_outputStream (fst w)) <> Some q ->
  (forall r, snd (writeProfile env r w) !! q = snd w !! q) /\
  snd (endSession env w) !! q = snd w !! q /\
  (forall name p clock,
      p <> q -> snd (beginSession env name p clock w) !! q = snd w !! q).
Proof.
  intros Hq. split; [|split].
  - intros r. destruct (m_currentSessionActive (fst w)) eqn:Ha.
    + rewrite (writeProfile_active env _ _ Ha).
      rewrite puts_frame; [reflexivity | exact Hq].
    + now rewrite (writeProfile_inactive env _ _ Ha).
  - now apply endSession_frame.
  - intros name p clock Hp.
    unfold beginSession, writeHeader, flush, skip, seq.
    unfold set_sessionStartUs, set_profileCount, set_active, set_session;
      cbn [fst snd].
    set (w0 := if m_currentSessionActive (fst w) then endSession env w else w).
    assert (H0 : snd w0 !! q = snd w !! q).
    { unfold w0. destruct (m_currentSessionActive (fst w)); [|reflexivity].
      now apply endSession_frame. }
    assert (F0 : file (m_outputStream (fst w0)) <> Some q).
    { unfold w0. destruct (m_currentSessionActive (fst w)) eqn:Ha; [|exact Hq].
      rewrite (endSession_stream_closed env w); [discriminate|].
      intros Hin. congruence. }
    rewrite <- H0. clearbody w0.
    rewrite put_frame.
    + unfold on_stream, stream_open; cbn [fst snd].
      destruct (file (m_outputStream (fst w0))); [reflexivity|].
      destruct (openable env p); [|reflexivity].
      cbn [snd]. now apply lookup_insert_ne.
    + unfold on_stream, stream_open; cbn [fst snd m_outputStream].
      destruct (file (m_outputStream (fst w0))) eqn:Hf; cbn [fst file].
      * exact F0.
      * destruct (openable env p); cbn [fst file]; congruence.
Qed.

(** *** Sessions from any state *)

(** X11. After [beginSession] a session is active, with no event counted
    and the clock reading as baseline, whatever became of the file; after
    [endSession] none is active, and a second [endSession] changes nothing;
    ending an active session resets the count and the baseline and leaves
    the stream with no file. *)
Theorem session_flags w :
  (forall name p clock,
      let w' := beginSession env name p clock w in
      m_currentSessionActive (fst w') = true /\
      m_session (fst w') = mkSession name /\
      m_profileCount (fst w') = 0 /\
      m_sessionStartUs (fst w') = nowUs clock /\
      0 <= nowUs clock < 2 ^ 64) /\
  (let w' := endSession env w in
   m_currentSessionActive (fst w') = false /\
   endSession env w' = w' /\
   (m_currentSessionActive (fst w) = true ->
    m_profileCount (fst w') = 0 /\
    m_sessionStartUs (fst w') = 0 /\
    file (m_outputStream (fst w')) = None)).
Proof.
  split.
  - intros name p clock. repeat split; try reflexivity; apply u64_range.
  - cbv zeta. split; [apply endSession_inactive|]. split.
    + unfold endSession at 1. now rewrite endSession_inactive.
    + intros Ha. split; [|split].
      * unfold endSession. now rewrite Ha.
      * unfold endSession. now rewrite Ha.
      * apply endSession_stream_closed. intros Hin. congruence.
Qed.

(** X12. One session, from any state in which the stream is closed between
    sessions (an earlier session may still be active, or may have failed):
    on a path that can be opened and written, after [beginSession] and any
    intervals the file holds the header and their events, whatever it held
    before, and no footer yet; after [endSession] it holds the whole
    document, and the profile count was the number of intervals. *)
Theorem session_document name p clock rs w :
  closed_when_inactive w ->
  openable env p = true ->
  writable env p = true ->
  let w1 := beginSession env name p clock w in
  let w2 := record_all env rs w1 in
  snd w2 !! p =
    Some (header +:+ String.concat ", " (map (eventText (nowUs clock)) rs)) /\
  m_profileCount (fst w2) = Z.of_nat (length rs) /\
  snd (endSession env w2) !! p = Some (document (nowUs clock) rs).
Proof.
  intros Hc Hop Hwr w1 w2.
  destruct (session_begin env name p clock w Hc Hop Hwr) as [S1 _].
  fold w1 in S1.
  destruct (session_record_all env p _ rs [] w1 S1) as [S2 _].
  fold w2 in S2. cbn [app] in S2.
  pose proof (session_end env _ _ _ _ S2) as E2.
  destruct S2 as (_ & _ & Hn & _ & _ & Hf).
  split; [exact Hf|]. split.
  - rewrite Hn. now rewrite length_map.
  - rewrite E2. cbn [snd]. rewrite lookup_insert_eq.
    unfold document. now rewrite append_assoc.
Qed.

(** *** A timer and its scope *)

(** X13. A timer constructed and destroyed inside an active session, the
    clock not going back and the baseline not after the construction:
    the destructor submits one interval, and the event written has the
    time since the baseline as [ts] and the time the timer lived as [dur];
    neither wraps. *)
Theorem scoped_timer_event p base texts name c0 c1 thread w log :
  session_at env p base texts w ->
  0 <= base <= c0 ->
  c0 <= c1 < 2 ^ 64 ->
  let s := Timer_delete env (Timer_new name c0) c1 thread (w, log) in
  session_at env p base
    (texts ++ [eventJson (c1 - c0) (sanitize name) (u32 thread) (c0 - base)])
    (fst s) /\
  snd s = (log ++ [mkProfileResult name c0 c1 (u32 thread)])%list /\
  0 <= c1 - c0.
Proof.
  intros Hs Hb Hc.
  assert (N0 : nowUs c0 = c0) by (apply Z.mod_small; lia).
  assert (N1 : nowUs c1 = c1) by (apply Z.mod_small; lia).
  unfold Timer_delete, Timer_new, stop, submit;
    cbn [m_stopped negb m_name m_startUs fst snd]. rewrite N0, N1.
  split; [|split; [reflexivity | lia]].
  set (r := mkProfileResult name c0 c1 (u32 thread)).
  assert (Ht : eventText base r =
               eventJson (c1 - c0) (sanitize name) (u32 thread) (c0 - base)).
  { unfold eventText. rewrite dur_field_eq. unfold ts_field.
    cbn [startUs endUs InstrSpec.sanitize Instr.name threadId r].
    rewrite !u64_sub by lia.
    destruct (Z.ltb_spec c1 c0); [lia|].
    destruct (Z.ltb_spec c0 base); [lia|]. reflexivity. }
  rewrite <- Ht. now apply session_writeProfile.
Qed.

(** X14. A timer stopped while no session is active submits its interval
    to an Instrumentor that drops it: the Instrumentor and the files stay
    as they were, the timer counts as stopped, and its destructor will
    write nothing, whatever session is active by then. *)
Theorem stop_outside_session_is_lost t clock thread w log :
  m_stopped t = false ->
  m_currentSessionActive (fst w) = false ->
  let r := stop env t clock thread (w, log) in
  fst (snd r) = w /\
  m_stopped (fst r) = true /\
  forall clock' thread' s, Timer_delete env (fst r) clock' thread' s = s.
Proof.
  intros Ht Ha. unfold stop. rewrite Ht. cbn [fst snd submit].
  split; [|split].
  - now apply writeProfile_inactive.
  - reflexivity.
  - intros clock' thread' s. reflexivity.
Qed.

(** *** Names *)

Lemma sanitize_unquoted s :
  (forall i, String.get i s <> Some dquote) -> sanitize s = s.
Proof.
  induction s as [|c s IH]; intros Hq; [reflexivity|].
  cbn [sanitize replace]. fold (sanitize s).
  destruct (Ascii.eqb_spec c dquote) as [->|_].
  - exfalso. now apply (Hq 0%nat).
  - f_equal. apply IH. intros i. exact (Hq (S i)).
Qed.

(** X15. A name is sanitized once and for all: sanitizing it again
    changes nothing, and a name without a double-quote is written as it
    is. *)
Theorem sanitize_idempotent s :
  sanitize (sanitize s) = sanitize s /\
  ((forall i, String.get i s <> Some dquote) -> sanitize s = s).
Proof.
  split.
  - apply sanitize_unquoted. intros i. apply sanitize_no_dquote.
  - apply sanitize_unquoted.
Qed.

End WithEnv.

Lemma only_the_session_file_is_written_witness :
  file (m_outputStream (fst demo_world)) <> Some "other.json" /\
  snd (writeProfile harsh_env first_interval demo_world) !! "other.json" =
    snd demo_world !! "other.json".
Proof.
  assert (H : file (m_outputStream (fst demo_world)) <> Some "other.json")
    by (vm_compute; discriminate).
  split; [exact H|].
  apply (proj1 (only_the_session_file_is_written harsh_env demo_world
                  "other.json" H)).
Defined.

Lemma session_document_witness :
  closed_when_inactive demo_world /\
  openable harsh_env "next.json" = true /\
  writable harsh_env "next.json" = true /\
  snd (endSession harsh_env
         (record_all harsh_env [first_interval; second_interval]
            (beginSession harsh_env "Next" "next.json" 105 demo_world)))
    !! "next.json" =
    Some (document 105 [first_interval; second_interval]).
Proof.
  assert (Hc : closed_when_inactive demo_world)
    by (intros Hin; vm_compute in Hin; discriminate).
  split; [exact Hc|]. do 2 (split; [reflexivity|]).
  apply (session_document harsh_env "Next" "next.json" 105
           [first_interval; second_interval] demo_world Hc eq_refl eq_refl).
Defined.

Lemma scoped_timer_event_witness :
  session_at harsh_env "trace.json" 100 [] demo_world /\
  0 <= 100 <= 110 /\ 110 <= 150 < 2 ^ 64 /\
  snd (Timer_delete harsh_env (Timer_new "load" 110) 150 7 (demo_world, [])) =
    [mkProfileResult "load" 110 150 (u32 7)].
Proof.
  assert (Hs : session_at harsh_env "trace.json" 100 [] demo_world)
    by (repeat split; vm_compute; reflexivity).
  assert (Hb : 0 <= 100 <= 110) by lia.
  assert (Hc : 110 <= 150 < 2 ^ 64) by lia.
  split; [exact Hs|]. split; [exact Hb|]. split; [exact Hc|].
  apply (scoped_timer_event harsh_env "trace.json" 100 [] "load" 110 150 7
           demo_world [] Hs Hb Hc).
Defined.

Lemma stop_outside_session_is_lost_witness :
  m_stopped (Timer_new "load" 110) = false /\
  m_currentSessionActive (fst fresh_world) = false /\
  fst (snd (stop harsh_env (Timer_new "load" 110) 150 7 (fresh_world, []))) =
    fresh_world.
Proof.
  do 2 (split; [reflexivity|]).
  apply (stop_outside_session_is_lost harsh_env (Timer_new "load" 110) 150 7
           fresh_world [] eq_refl eq_refl).
Defined.

Lemma sanitize_idempotent_witness :
  (forall i, String.get i "load" <> Some dquote) /\ sanitize "load" = "load".
Proof.
  assert (H : forall i, String.get i "load" <> Some dquote).
  { intros i. do 5 (destruct i as [|i]; [discriminate|]). discriminate. }
  split; [exact H|].
  apply (proj2 (sanitize_idempotent "load") H).
Defined.

End InstrMore.

(** ** The events a test counts *)

Module TestFacts.
Import Instr InstrSpec InstrFacts TestSupport.
Local Open Scope Z_scope.

(** *** Searching from a position *)

Lemma index_here s : String.prefix needle s = true -> String.index 0 needle s = Some 0%nat.
Proof.
  destruct s as [|c s]; [discriminate|]. intros H. cbn [String.index].
  now rewrite H.
Qed.

Lemma index_later c s :
  String.prefix needle (String c s) = false ->
  String.index 0 needle (String c s) = option_map S (String.index 0 needle s).
Proof.
  intros H. cbn [String.index]. rewrite H.
  destruct (String.index 0 needle s); reflexivity.
Qed.

Lemma index_shift c s pos :
  String.index (S pos) needle (String c s) =
    option_map S (String.index pos needle s).
Proof.
  cbn [String.index]. destruct (String.index pos needle s); reflexivity.
Qed.

Lemma loop_shift c s : forall fuel count pos,
  countEvents_loop fuel (String c s) count (S pos) =
  countEvents_loop fuel s count pos.
Proof.
  induction fuel as [|fuel IH]; intros count pos; [reflexivity|].
  cbn [countEvents_loop]. rewrite index_shift.
  destruct (String.index pos needle s) as [i|]; [|reflexivity].
  cbn [option_map]. apply IH.
Qed.

Lemma loop_miss c s fuel count :
  String.prefix needle (String c s) = false ->
  countEvents_loop fuel (String c s) count 0 =
  countEvents_loop fuel s count 0.
Proof.
  intros H. destruct fuel as [|fuel]; [reflexivity|].
  cbn [countEvents_loop]. rewrite (index_later _ _ H).
  destruct (String.index 0 needle s) as [i|]; [|reflexivity].
  cbn [option_map]. apply loop_shift.
Qed.

Lemma prefix_needle b : String.prefix needle (needle +:+ b) = true.
Proof. destruct b; reflexivity. Qed.

Lemma loop_hit b fuel count :
  countEvents_loop (S fuel) (needle +:+ b) count 0 =
  countEvents_loop fuel b (count + 1) 0.
Proof.
  cbn [countEvents_loop]. rewrite index_here by apply prefix_needle.
  change (0 + String.length needle)%nat with 8%nat.
  change (needle +:+ b)
    with (String dquote (String "p" (String "h" (String dquote
           (String ":" (String dquote (String "X" (String dquote b)))))))).
  now rewrite !loop_shift.
Qed.

Lemma loop_empty fuel count : countEvents_loop fuel "" count 0 = count.
Proof. destruct fuel; reflexivity. Qed.

(** *** Texts in which no needle begins *)

Lemma append_cons c (a b : string) : String c a +:+ b = String c (a +:+ b).
Proof. reflexivity. Qed.

Lemma mismatch_prefix n : forall a b,
  mismatch n a = true -> String.prefix n (a +:+ b) = false.
Proof.
  induction n as [|x n IH]; intros a b H; [discriminate|].
  destruct a as [|c a]; [discriminate|].
  rewrite append_cons. cbn [mismatch] in H. cbn [String.prefix].
  destruct (ascii_dec x c) as [->|Hne]; [|reflexivity].
  rewrite Ascii.eqb_refl in H. now apply IH.
Qed.

Lemma loop_safe a b fuel count :
  safe a = true ->
  countEvents_loop fuel (a +:+ b) count 0 = countEvents_loop fuel b count 0.
Proof.
  induction a as [|c a IH]; intros H; [reflexivity|].
  cbn [safe] in H. apply andb_true_iff in H as [Hm Hs].
  rewrite append_cons, loop_miss.
  - now apply IH.
  - rewrite <- append_cons. now apply mismatch_prefix.
Qed.

Lemma mismatch_unquoted c a :
  Ascii.eqb c dquote = false -> mismatch needle (String c a) = true.
Proof.
  intros H. change needle with (String dquote (String "p" (String "h"
    (String dquote (String ":" (String dquote
      (String "X" (String dquote ""))))))))%string.
  cbn [mismatch]. now rewrite Ascii.eqb_sym, H.
Qed.

Lemma safe_unquoted_app a a' : unquoted a = true -> safe (a +:+ a') = safe a'.
Proof.
  induction a as [|c a IH]; intros H; [reflexivity|].
  cbn [unquoted] in H. apply andb_true_iff in H as [Hc Ha].
  apply negb_true_iff in Hc.
  rewrite append_cons. cbn [safe]. rewrite <- append_cons.
  rewrite append_cons, (mismatch_unquoted _ _ Hc). cbn [andb]. now apply IH.
Qed.

Lemma unquoted_safe a : unquoted a = true -> safe a = true.
Proof.
  intros H. rewrite <- (append_empty_r a).
  now rewrite safe_unquoted_app.
Qed.

Lemma sanitize_is_unquoted s : unquoted (sanitize s) = true.
Proof.
  induction s as [|c s IH]; [reflexivity|].
  cbn [sanitize replace unquoted]. fold (sanitize s). rewrite IH.
  destruct (Ascii.eqb_spec c dquote) as [->|Hne]; [reflexivity|].
  apply Ascii.eqb_neq in Hne. now rewrite Hne.
Qed.

Lemma pretty_N_go_unquoted x : forall s,
  unquoted s = true -> unquoted (pretty_N_go x s) = true.
Proof.
  induction (N.lt_wf_0 x) as [x _ IH]; intros s Hs.
  destruct (N.eq_dec x 0%N) as [->|Hx].
  - now rewrite pretty_N_go_0.
  - rewrite pretty_N_go_step by lia. apply IH.
    + apply N.div_lt; lia.
    + cbn [unquoted]. rewrite Hs.
      unfold pretty_N_char. now repeat case_match.
Qed.

Lemma pretty_Z_unquoted (z : Z) : unquoted (pretty z) = true.
Proof.
  assert (HN : forall n : N, unquoted (pretty n) = true).
  { intros n. unfold pretty, pretty_N. case_decide; [reflexivity|].
    now apply pretty_N_go_unquoted. }
  destruct z as [|p|p]; [reflexivity | apply HN |].
  unfold pretty, pretty_Z. rewrite append_cons. cbn [unquoted].
  apply (HN (Npos p)).
Qed.

(** The value of the [name] field with its two quotes and the comma. *)
Lemma safe_name n :
  unquoted n = true -> safe (String dquote (n +:+ String dquote ",")) = true.
Proof.
  intros H. cbn [safe]. apply andb_true_iff. split.
  - change needle with (String dquote (String "p" (String "h"
      (String dquote (String ":" (String dquote
        (String "X" (String dquote ""))))))))%string.
    destruct n as [|c1 [|c2 [|c3 n]]]; rewrite ?append_cons;
      change (EmptyString +:+ String dquote ",")%string
        with (String dquote ",");
      cbn [mismatch]; rewrite Ascii.eqb_refl.
    + reflexivity.
    + now destruct (Ascii.eqb "p" c1).
    + destruct (Ascii.eqb "p" c1); [|reflexivity].
      destruct (Ascii.eqb "h" c2); reflexivity.
    + cbn [unquoted] in H.
      apply andb_true_iff in H as [_ H]. apply andb_true_iff in H as [_ H].
      apply andb_true_iff in H as [H _]. apply negb_true_iff in H.
      destruct (Ascii.eqb "p" c1); [|reflexivity].
      destruct (Ascii.eqb "h" c2); [|reflexivity].
      now rewrite Ascii.eqb_sym, H.
  - now rewrite safe_unquoted_app.
Qed.

(** *** One event, then a document *)

(** An event's text: between texts in which no needle begins, the two
    numbers and the quoted name, one needle, and the last number. *)
Lemma eventJson_segments dur nm tid ts b :
  eventJson dur nm tid ts +:+ b =
    ("{" +:+ quoted "dur" +:+ ":") +:+ pretty dur +:+
    ("," +:+ quoted "cat" +:+ ":" +:+ quoted "function" +:+ "," +:+
       quoted "name" +:+ ":") +:+
    String dquote (nm +:+ String dquote ",") +:+
    needle +:+
    ("," +:+ quoted "pid" +:+ ":0," +:+ quoted "tid" +:+ ":") +:+
    pretty tid +:+
    ("," +:+ quoted "ts" +:+ ":") +:+ pretty ts +:+ "}" +:+ b.
Proof.
  unfold eventJson, eventPieces, needle, quoted. cbn [cat fold_right].
  repeat (rewrite append_cons || rewrite append_assoc).
  reflexivity.
Qed.

Lemma event_step dur nm tid ts b fuel count :
  unquoted nm = true ->
  countEvents_loop (S fuel) (eventJson dur nm tid ts +:+ b) count 0 =
  countEvents_loop fuel b (count + 1) 0.
Proof.
  intros Hn. rewrite eventJson_segments.
  rewrite loop_safe by reflexivity.
  rewrite loop_safe by apply unquoted_safe, pretty_Z_unquoted.
  rewrite loop_safe by reflexivity.
  rewrite loop_safe by now apply safe_name.
  rewrite loop_hit.
  rewrite loop_safe by reflexivity.
  rewrite loop_safe by apply unquoted_safe, pretty_Z_unquoted.
  rewrite loop_safe by reflexivity.
  rewrite loop_safe by apply unquoted_safe, pretty_Z_unquoted.
  now rewrite (loop_safe "}") by reflexivity.
Qed.

Lemma events_tally base rs : forall fuel count,
  (length rs < fuel)%nat ->
  countEvents_loop fuel
    (String.concat ", " (map (eventText base) rs) +:+ footer) count 0 =
  count + Z.of_nat (length rs).
Proof.
  induction rs as [|r rs IH]; intros fuel count Hf.
  - change (countEvents_loop fuel (footer +:+ "") count 0 = count + 0).
    rewrite loop_safe by reflexivity. rewrite loop_empty. lia.
  - destruct fuel as [|fuel]; [cbn [length] in Hf; lia|].
    destruct rs as [|r' rs].
    + cbn [map String.concat]. unfold eventText.
      rewrite event_step by apply sanitize_is_unquoted.
      change (countEvents_loop fuel (footer +:+ "") (count + 1) 0 =
              count + 1).
      rewrite loop_safe by reflexivity. now rewrite loop_empty.
    + change (String.concat ", " (map (eventText base) (r :: r' :: rs)))
        with (eventText base r +:+ ", " +:+
              String.concat ", " (map (eventText base) (r' :: rs))).
      rewrite !append_assoc. unfold eventText at 1.
      rewrite event_step by apply sanitize_is_unquoted.
      rewrite loop_safe by reflexivity.
      rewrite IH by (cbn [length] in *; lia).
      cbn [length]. lia.
Qed.

(** *** The loop ends *)

Lemma prefix_split n : forall s,
  String.prefix n s = true -> exists b, s = n +:+ b.
Proof.
  induction n as [|x n IH]; intros s H.
  - now exists s.
  - destruct s as [|c s]; [discriminate|]. cbn [String.prefix] in H.
    destruct (ascii_dec x c) as [->|]; [|discriminate].
    destruct (IH s H) as [b ->]. now exists b.
Qed.

Lemma loop_any_fuel k : forall s fuel fuel' count,
  (String.length s <= k)%nat ->
  (String.length s < fuel)%nat ->
  (String.length s < fuel')%nat ->
  countEvents_loop fuel s count 0 = countEvents_loop fuel' s count 0.
Proof.
  induction k as [k IH] using lt_wf_ind. intros s fuel fuel' count Hk Hf Hf'.
  destruct s as [|c s]; [now rewrite !loop_empty|].
  destruct (String.prefix needle (String c s)) eqn:Hp.
  - destruct (prefix_split _ _ Hp) as [b Hb]. rewrite Hb in *.
    assert (Hlen : String.length (needle +:+ b) = (8 + String.length b)%nat)
      by reflexivity.
    rewrite Hlen in *.
    destruct fuel as [|fuel]; [lia|]. destruct fuel' as [|fuel']; [lia|].
    rewrite !loop_hit. apply (IH (String.length b)); lia.
  - rewrite !(loop_miss _ _ _ _ Hp). cbn [String.length] in *.
    apply (IH (String.length s)); lia.
Qed.

(** X16. The loop of [countEvents] ends before it has made as many turns
    as the text has characters: with any more turns allowed the count is
    the same. *)
Theorem countEvents_enough_fuel json fuel :
  (String.length json < fuel)%nat ->
  countEvents_loop fuel json 0 0 = countEvents json.
Proof.
  intros Hf. unfold countEvents.
  apply (loop_any_fuel (String.length json)); lia.
Qed.

Lemma countEvents_enough_fuel_witness :
  (String.length (header +:+ footer) < 100)%nat /\
  countEvents_loop 100 (header +:+ footer) 0 0 =
    countEvents (header +:+ footer).
Proof.
  assert (H : (String.length (header +:+ footer) < 100)%nat)
    by (vm_compute; lia).
  split; [exact H|].
  apply (countEvents_enough_fuel (header +:+ footer) 100 H).
Defined.

(** X17. The count a test reads off a finished document is the number of
    intervals recorded in it, whatever their names, times and threads: the
    needle is found once in each event and nowhere else, the names having
    lost their double-quotes. *)
Theorem countEvents_document base rs :
  countEvents (document base rs) = Z.of_nat (length rs).
Proof.
  rewrite <- (countEvents_enough_fuel _
                (S (String.length (document base rs)) + S (length rs))) by lia.
  unfold document. rewrite loop_safe by reflexivity.
  rewrite events_tally by lia. lia.
Qed.

(** The two nested timers of [demo_program] are counted as two. *)
Example demo_program_count :
  countEvents (default "" (snd (fst (traced demo_final)) !! "trace.json")) = 2.
Proof. vm_compute. reflexivity. Qed.

(** *** A whole session of timers *)

Section WithEnv.
Variable env : Env.

Lemma run_app ops ops' : forall pr,
  run env (ops ++ ops') pr =
    match run env ops pr with
    | Some pr' => run env ops' pr'
    | None => None
    end.
Proof.
  induction ops as [|op ops IH]; intros pr; [reflexivity|].
  cbn [app run]. destruct (exec env op pr); [apply IH | reflexivity].
Qed.

Lemma exec_timer_in_session p base log0 op pr pr' rs :
  is_timer_op op = true ->
  exec env op pr = Some pr' ->
  session_at env p base (map (eventText base) rs) (fst (traced pr)) ->
  snd (traced pr) = (log0 ++ rs)%list ->
  exists rs',
    session_at env p base (map (eventText base) rs') (fst (traced pr')) /\
    snd (traced pr') = (log0 ++ rs')%list.
Proof.
  intros Hop Hex Hs Hlog.
  assert (Hsub : forall r,
    session_at env p base (map (eventText base) (rs ++ [r]))
      (fst (submit env r (traced pr))) /\
    snd (submit env r (traced pr)) = (log0 ++ (rs ++ [r]))%list).
  { intros r. unfold submit; cbn [fst snd]. split.
    - rewrite map_app. now apply session_writeProfile.
    - now rewrite Hlog, app_assoc. }
  destruct op as [id name clock | id clock thread | id clock thread
                  | name filepath clock | ]; try discriminate Hop;
    cbn [exec] in Hex.
  - destruct (timers pr !! id); [discriminate|]. injection Hex as <-.
    now exists rs.
  - destruct (timers pr !! id) as [t|]; [|discriminate].
    unfold stop in Hex. destruct (m_stopped t); injection Hex as <-;
      cbn [traced].
    + now exists rs.
    + eexists. apply Hsub.
  - destruct (timers pr !! id) as [t|]; [|discriminate].
    injection Hex as <-. cbn [traced]. unfold Timer_delete, stop.
    destruct (m_stopped t); cbn [negb snd].
    + now exists rs.
    + eexists. apply Hsub.
Qed.

Lemma run_timers_in_session p base log0 ops : forall pr pr' rs,
  forallb is_timer_op ops = true ->
  run env ops pr = Some pr' ->
  session_at env p base (map (eventText base) rs) (fst (traced pr)) ->
  snd (traced pr) = (log0 ++ rs)%list ->
  exists rs',
    session_at env p base (map (eventText base) rs') (fst (traced pr')) /\
    snd (traced pr') = (log0 ++ rs')%list.
Proof.
  induction ops as [|op ops IH]; intros pr pr' rs Hall Hrun Hs Hlog.
  - injection Hrun as <-. now exists rs.
  - cbn [forallb] in Hall. apply andb_true_iff in Hall as [Hop Hall].
    cbn [run] in Hrun. destruct (exec env op pr) as [pr1|] eqn:Hex;
      [|discriminate].
    destruct (exec_timer_in_session p base log0 op pr pr1 rs Hop Hex Hs Hlog)
      as (rs1 & Hs1 & Hlog1).
    exact (IH pr1 pr' rs1 Hall Hrun Hs1 Hlog1).
Qed.

(** X18. A session that is begun on a file that can be opened and written,
    runs any program of timers, all of them gone at the end, and is ended:
    the file holds the document of the intervals the timers submitted,
    these are as many as the timers constructed, and that is the count a
    test reads off the file. *)
Theorem timed_session_count name p clock ops pr0 pr :
  closed_when_inactive (fst (traced pr0)) ->
  openable env p = true ->
  writable env p = true ->
  timers pr0 = ∅ ->
  forallb is_timer_op ops = true ->
  run env (BeginSession name p clock :: ops ++ [EndSession]) pr0 = Some pr ->
  timers pr = ∅ ->
  exists rs,
    snd (traced pr) = (snd (traced pr0) ++ rs)%list /\
    length rs = constructions ops /\
    snd (fst (traced pr)) !! p = Some (document (nowUs clock) rs) /\
    countEvents (document (nowUs clock) rs) = Z.of_nat (constructions ops).
Proof.
  intros Hc Hop Hwr Ht0 Hall Hrun Ht.
  cbn [run exec] in Hrun. rewrite run_app in Hrun.
  set (pr1 := mkProcess
                (beginSession env name p clock (fst (traced pr0)),
                 snd (traced pr0)) (timers pr0)) in Hrun.
  destruct (run env ops pr1) as [pr2|] eqn:Hops; [|discriminate].
  cbn [run exec] in Hrun. injection Hrun as <-. cbn [traced timers] in *.
  destruct (session_begin env name p clock _ Hc Hop Hwr) as [S1 _].
  destruct (run_timers_in_session p (nowUs clock) (snd (traced pr0)) ops
              pr1 pr2 [] Hall Hops S1) as (rs & S2 & Hlog).
  { cbn [pr1 traced snd]. now rewrite app_nil_r. }
  pose proof (run_account env ops pr1 pr2 Hops) as Hacc.
  rewrite Ht, Hlog in Hacc. cbn [pr1 traced timers snd] in Hacc.
  rewrite Ht0 in Hacc. unfold running_timers in Hacc.
  rewrite map_filter_empty, map_size_empty, length_app in Hacc.
  assert (Hn : length rs = constructions ops) by lia.
  exists rs. cbn [traced fst snd].
  split; [exact Hlog|]. split; [exact Hn|]. split.
  - rewrite (session_end env _ _ _ _ S2). cbn [snd].
    rewrite lookup_insert_eq. unfold document. now rewrite append_assoc.
  - now rewrite countEvents_document, Hn.
Qed.

End WithEnv.

Lemma timed_session_count_witness :
  closed_when_inactive (fst (traced demo_start)) /\
  openable harsh_env "trace.json" = true /\
  writable harsh_env "trace.json" = true /\
  timers demo_start = ∅ /\
  run harsh_env demo_program demo_start = Some demo_final /\
  timers demo_final = ∅ /\
  exists rs,
    snd (fst (traced demo_final)) !! "trace.json" = Some (document 100 rs) /\
    countEvents (document 100 rs) = 2.
Proof.
  assert (Hc : closed_when_inactive (fst (traced demo_start)))
    by (intros _; reflexivity).
  assert (Hrun : run harsh_env demo_program demo_start = Some demo_final)
    by (vm_compute; reflexivity).
  assert (Hend : timers demo_final = ∅) by (vm_compute; reflexivity).
  split; [exact Hc|]. do 3 (split; [reflexivity|]).
  split; [exact Hrun|]. split; [exact Hend|].
  destruct (timed_session_count harsh_env "Demo" "trace.json" 100
              [ Construct 0 "outer" 110; Construct 1 "inner" 120;
                Stop 1 130 7; Stop 1 135 7; Destroy 1 140 7; Destroy 0 150 7 ]
              demo_start demo_final Hc eq_refl eq_refl eq_refl eq_refl
              Hrun Hend) as (rs & _ & _ & Hdoc & Hcount).
  exists rs. split; [exact Hdoc | exact Hcount].
Defined.

End TestFacts.

(** ** Timers under a steady clock *)

Module SteadyFacts.
Import Instr InstrSpec InstrFacts SteadyClock.
Local Open Scope Z_scope.

Section WithEnv.
Variable env : Env.

Lemma steady_state_later now now' pr :
  now <= now' -> steady_state now pr -> steady_state now' pr.
Proof.
  intros Hle (H0 & Ht & Hl). split; [lia|]. split; [|exact Hl].
  intros id t Hid. specialize (Ht id t Hid). cbn in Ht. cbn. lia.
Qed.

Lemma steady_submit now clock t thread pr :
  steady_state now pr ->
  now <= clock < 2 ^ 64 ->
  0 <= m_startUs t <= now ->
  Forall forward
    (snd (submit env (mkProfileResult (m_name t) (m_startUs t) (nowUs clock)
                        (u32 thread)) (traced pr))).
Proof.
  intros (H0 & _ & Hl) Hc Ht. unfold submit; cbn [snd].
  apply Forall_app. split; [exact Hl|]. constructor; [|constructor].
  assert (N : nowUs clock = clock) by (apply Z.mod_small; lia).
  unfold forward; cbn [startUs endUs]. rewrite N. lia.
Qed.

Lemma exec_steady op now pr pr' :
  exec env op pr = Some pr' ->
  steady_state now pr ->
  match op_clock op with
  | Some clock => now <= clock < 2 ^ 64 -> steady_state clock pr'
  | None => steady_state now pr'
  end.
Proof.
  intros Hex Hst.
  destruct op as [id name clock | id clock thread | id clock thread
                  | name filepath clock | ]; cbn [exec op_clock] in *.
  - intros Hc. destruct (timers pr !! id); [discriminate|].
    injection Hex as <-.
    destruct (steady_state_later now clock pr (proj1 Hc) Hst) as (H0 & Ht & Hl).
    split; [exact H0|]. split; [|exact Hl]. cbn [timers].
    apply map_Forall_insert_2; [|exact Ht].
    assert (N : nowUs clock = clock) by (apply Z.mod_small; lia).
    cbn [Timer_new m_startUs]. rewrite N. lia.
  - intros Hc. destruct (timers pr !! id) as [t|] eqn:Hid; [|discriminate].
    pose proof (proj1 (proj2 Hst) id t Hid) as Hstart. cbn in Hstart.
    destruct (steady_state_later now clock pr (proj1 Hc) Hst) as (H0 & Ht & Hl).
    unfold stop in Hex. destruct (m_stopped t) eqn:Hs; injection Hex as <-.
    + split; [exact H0|]. split; [|exact Hl]. cbn [timers].
      rewrite (insert_id _ _ _ Hid). exact Ht.
    + split; [exact H0|]. split.
      * cbn [timers]. apply map_Forall_insert_2; [|exact Ht].
        cbn [m_startUs]. lia.
      * cbn [traced]. now apply (steady_submit now).
  - intros Hc. destruct (timers pr !! id) as [t|] eqn:Hid; [|discriminate].
    pose proof (proj1 (proj2 Hst) id t Hid) as Hstart. cbn in Hstart.
    destruct (steady_state_later now clock pr (proj1 Hc) Hst) as (H0 & Ht & Hl).
    injection Hex as <-. split; [exact H0|]. split.
    + cbn [timers]. now apply map_Forall_delete.
    + cbn [traced]. unfold Timer_delete, stop.
      destruct (m_stopped t); cbn [negb snd]; [exact Hl|].
      now apply (steady_submit now).
  - intros Hc. injection Hex as <-.
    exact (steady_state_later now clock _ (proj1 Hc) Hst).
  - injection Hex as <-. exact Hst.
Qed.

Lemma run_steady ops : forall now pr pr',
  steady now ops = true ->
  run env ops pr = Some pr' ->
  steady_state now pr ->
  exists now', steady_state now' pr'.
Proof.
  induction ops as [|op ops IH]; intros now pr pr' Hsteady Hrun Hst.
  - injection Hrun as <-. now exists now.
  - cbn [run] in Hrun. destruct (exec env op pr) as [pr1|] eqn:Hex;
      [|discriminate].
    pose proof (exec_steady op now pr pr1 Hex Hst) as Hstep.
    cbn [steady] in Hsteady. destruct (op_clock op) as [clock|].
    + apply andb_true_iff in Hsteady as [Hc Hsteady].
      apply andb_true_iff in Hc as [Hc1 Hc2].
      apply Z.leb_le in Hc1. apply Z.ltb_lt in Hc2.
      apply (IH clock pr1 pr' Hsteady Hrun). apply Hstep. lia.
    + exact (IH now pr1 pr' Hsteady Hrun Hstep).
Qed.

(** X19. Under a clock that never goes back and whose readings fit in 64
    bits, every interval a program of timers submits runs forward: it
    starts at its timer's construction, ends at the first stop or at the
    destruction, and its end is no earlier than its start. *)
Theorem steady_clock_intervals_run_forward ops pr0 pr :
  steady 0 ops = true ->
  timers pr0 = ∅ ->
  snd (traced pr0) = [] ->
  run env ops pr0 = Some pr ->
  Forall forward (snd (traced pr)).
Proof.
  intros Hsteady Ht Hl Hrun.
  destruct (run_steady ops 0 pr0 pr Hsteady Hrun) as (now' & _ & _ & H).
  - split; [lia|]. split.
    + rewrite Ht. apply map_Forall_empty.
    + rewrite Hl. constructor.
  - exact H.
Qed.

End WithEnv.

Lemma steady_clock_intervals_run_forward_witness :
  steady 0 demo_program = true /\
  timers demo_start = ∅ /\
  snd (traced demo_start) = [] /\
  run harsh_env demo_program demo_start = Some demo_final /\
  Forall forward (snd (traced demo_final)).
Proof.
  assert (Hrun : run harsh_env demo_program demo_start = Some demo_final)
    by (vm_compute; reflexivity).
  do 3 (split; [reflexivity|]). split; [exact Hrun|].
  apply (steady_clock_intervals_run_forward harsh_env demo_program demo_start
           demo_final eq_refl eq_refl eq_refl Hrun).
Defined.

End SteadyFacts.

(** ** The documents are JSON *)

Module JsonFacts.
Import Instr InstrSpec InstrFacts Json.
Local Open Scope Z_scope.

(** *** The recogniser at work *)

Example json_accepts :
  json_valid "{}" = true /\
  json_valid " [1, -2.50, 3e+7, true, false, null, [], {}] " = true /\
  json_valid ("{" +:+ quoted "a\/é" +:+ " : [" +:+ quoted "" +:+ "]}")
    = true /\
  json_valid "0" = true.
Proof. repeat split; vm_compute; reflexivity. Qed.

Example json_rejects :
  json_valid "" = false /\
  json_valid "{" = false /\
  json_valid "[1,]" = false /\
  json_valid "[1 2]" = false /\
  json_valid "01" = false /\
  json_valid "1." = false /\
  json_valid "+1" = false /\
  json_valid "tru" = false /\
  json_valid "{}]" = false /\
  json_valid "[}" = false /\
  json_valid "{1:2}" = false /\
  json_valid ("{" +:+ quoted "a" +:+ "}") = false /\
  json_valid ("{" +:+ quoted "a" +:+ ":1,}") = false /\
  json_valid (quoted "a\") = false /\
  json_valid (quoted "\x") = false /\
  json_valid (quoted (String "010" "")) = false /\
  json_valid (String dquote "open") = false.
Proof. repeat split; vm_compute; reflexivity. Qed.

(** *** Reading a text piece by piece *)

Lemma run_text_append a b : forall st,
  run st (a +:+ b) =
    match run st a with
    | Some st' => run st' b
    | None => None
    end.
Proof.
  induction a as [|c a IH]; intros st; [reflexivity|].
  change (String c a +:+ b) with (String c (a +:+ b)). cbn [run].
  destruct (step st c); [apply IH | reflexivity].
Qed.

(** The piece read first is a text that is known: read it. *)
Ltac read_piece :=
  rewrite run_text_append;
  match goal with
  | |- context [run (?m, ?stack) ?piece] =>
      let r := eval vm_compute in (run (m, stack) piece) in
      change (run (m, stack) piece) with r; cbv iota beta
  end.

(** *** Names *)

Lemma run_plain key stack s :
  plain s = true ->
  run (Str key, stack) (sanitize s) = Some (Str key, stack).
Proof.
  induction s as [|c s IH]; intros H; [reflexivity|].
  cbn [plain] in H. apply andb_true_iff in H as [H Hs].
  apply andb_true_iff in H as [Hb Hc].
  apply negb_true_iff in Hb. apply negb_true_iff in Hc.
  cbn [sanitize replace run]. fold (sanitize s).
  destruct (Ascii.eqb c dquote) eqn:Hq.
  - now apply IH.
  - cbn [step]. rewrite Hq, Hb, Hc. now apply IH.
Qed.

(** *** Numbers *)

Lemma run_digits stack s :
  all_digits s = true -> run (Int, stack) s = Some (Int, stack).
Proof.
  induction s as [|c s IH]; intros H; [reflexivity|].
  cbn [all_digits] in H. apply andb_true_iff in H as [Hc Hs].
  cbn [run step]. rewrite Hc. now apply IH.
Qed.

Lemma pretty_N_char_digit d : is_digit (pretty_N_char d) = true.
Proof. unfold pretty_N_char. now repeat case_match. Qed.

Lemma run_pretty_N_go m0 stack :
  (forall d, (0 < d < 10)%N ->
             step (m0, stack) (pretty_N_char d) = Some (Int, stack)) ->
  forall x s, (0 < x)%N -> all_digits s = true ->
              run (m0, stack) (pretty_N_go x s) = Some (Int, stack).
Proof.
  intros Hfirst x. induction (N.lt_wf_0 x) as [x _ IH]; intros s Hx Hs.
  rewrite pretty_N_go_step by exact Hx.
  assert (Hs' : all_digits (String (pretty_N_char (x `mod` 10)%N) s) = true).
  { cbn [all_digits]. now rewrite pretty_N_char_digit, Hs. }
  destruct (N.eq_dec (x `div` 10)%N 0%N) as [Hz|Hnz].
  - rewrite Hz, pretty_N_go_0. cbn [run].
    assert (Hsmall : (x < 10)%N).
    { pose proof (N.Div0.div_mod x 10).
      pose proof (N.mod_lt x 10 ltac:(lia)). lia. }
    rewrite N.mod_small by exact Hsmall.
    rewrite Hfirst by lia. now apply run_digits.
  - apply IH; [apply N.div_lt; lia | now apply N.neq_0_lt_0 | exact Hs'].
Qed.

Lemma step_first_digit m0 stack :
  m0 = Value \/ m0 = Minus ->
  forall d, (0 < d < 10)%N ->
            step (m0, stack) (pretty_N_char d) = Some (Int, stack).
Proof.
  intros Hm d Hd.
  assert (d = 1 \/ d = 2 \/ d = 3 \/ d = 4 \/ d = 5 \/ d = 6 \/ d = 7
          \/ d = 8 \/ d = 9)%N as Hcases by lia.
  destruct Hm as [-> | ->];
    repeat (destruct Hcases as [-> | Hcases]; [reflexivity|]);
    subst; reflexivity.
Qed.

(** A printed integer is read as a number, from where a value may begin. *)
Lemma run_pretty_Z stack (z : Z) :
  exists m, run (Value, stack) (pretty z) = Some (m, stack) /\
            (m = Zero \/ m = Int).
Proof.
  destruct z as [|p|p].
  - exists Zero. split; [reflexivity | now left].
  - exists Int. split; [|now right].
    unfold pretty, pretty_Z, pretty, pretty_positive, pretty, pretty_N.
    rewrite decide_False by discriminate.
    apply run_pretty_N_go; [apply step_first_digit; now left | lia | reflexivity].
  - exists Int. split; [|now right].
    unfold pretty, pretty_Z.
    change ("-" +:+ pretty p) with (String "-"%char (pretty p)).
    cbn [run]. change (step (Value, stack) "-"%char) with (Some (Minus, stack)).
    unfold pretty, pretty_positive, pretty, pretty_N.
    rewrite decide_False by discriminate.
    apply run_pretty_N_go; [apply step_first_digit; now right | lia | reflexivity].
Qed.

(** *** Events and documents *)

Ltac read_number z :=
  rewrite run_text_append;
  match goal with
  | |- context [run (Value, ?stack) (pretty z)] =>
      let m := fresh "m" in
      let H := fresh "H" in
      destruct (run_pretty_Z stack z) as (m & H & [-> | ->]);
      rewrite H; clear H
  end.

(** An event is read as one object, where a value may begin. *)
Lemma run_event m0 stack dur nm tid ts :
  m0 = Value \/ m0 = ArrayStart ->
  plain nm = true ->
  run (m0, stack) (eventJson dur (sanitize nm) tid ts) = Some (After, stack).
Proof.
  intros Hm Hn. unfold eventJson, eventPieces. cbn [cat fold_right].
  assert (H0 : run (m0, stack) "{" = Some (ObjectStart, InObject :: stack))
    by (destruct Hm as [-> | ->]; reflexivity).
  rewrite run_text_append, H0. clear H0 Hm.
  read_piece.
  read_number dur; read_piece; read_piece; read_piece;
    (rewrite run_text_append, (run_plain _ _ _ Hn));
    read_piece; read_piece; read_piece; read_piece;
    read_number tid; read_piece; read_piece;
    read_number ts; read_piece; reflexivity.
Qed.

Lemma run_events base rs : forall m0 stack,
  m0 = Value \/ m0 = ArrayStart ->
  rs <> [] ->
  Forall (fun r => plain (name r) = true) rs ->
  run (m0, InArray :: stack)
    (String.concat ", " (map (eventText base) rs)) =
  Some (After, InArray :: stack).
Proof.
  induction rs as [|r rs IH]; intros m0 stack Hm Hne Hall; [congruence|].
  apply Forall_cons in Hall as [Hr Hall].
  destruct rs as [|r' rs].
  - cbn [map String.concat]. unfold eventText. now apply run_event.
  - change (String.concat ", " (map (eventText base) (r :: r' :: rs)))
      with (eventText base r +:+ ", " +:+
            String.concat ", " (map (eventText base) (r' :: rs))).
    rewrite run_text_append. unfold eventText at 1.
    rewrite (run_event _ _ _ _ _ _ Hm Hr).
    read_piece. apply IH; [now left | discriminate | exact Hall].
Qed.

(** The document of a session whose names are plain is JSON. *)
Lemma document_json_valid base rs :
  Forall (fun r => plain (name r) = true) rs ->
  json_valid (document base rs) = true.
Proof.
  intros Hall. unfold json_valid, document.
  read_piece. destruct rs as [|r rs].
  - reflexivity.
  - rewrite run_text_append, (run_events base (r :: rs) ArrayStart [InObject]);
      [reflexivity | now right | discriminate | exact Hall].
Qed.

(** *** Two sessions *)

Section WithEnv.
Variable env : Env.

(** C7, as the code has it.  Two sessions begun one after the other, on
    two different files that can be opened and written, with no
    [endSession] between them.  The second [beginSession] is
    [beginSession] applied after the whole of [endSession]: the footer is
    written to the first file, the stream is closed and the counters are
    reset before the second file is opened.  Once the second session is
    ended each file holds one closed document, header, events, footer, and
    its events are those of the intervals recorded while its own session
    was active.  Each document is a JSON text when the names of its
    intervals have no backslash and no control character. *)
Theorem beginSession_twice nameA nameB p1 p2 clock1 clock2 rs1 rs2 w0 :
  closed_when_inactive w0 ->
  p1 <> p2 ->
  openable env p1 = true -> writable env p1 = true ->
  openable env p2 = true -> writable env p2 = true ->
  let w1 := beginSession env nameA p1 clock1 w0 in
  let w2 := record_all env rs1 w1 in
  let w3 := beginSession env nameB p2 clock2 w2 in
  let w4 := record_all env rs2 w3 in
  let w5 := endSession env w4 in
  w3 = beginSession env nameB p2 clock2 (endSession env w2) /\
  snd (endSession env w2) !! p1 = Some (document (nowUs clock1) rs1) /\
  m_outputStream (fst (endSession env w2)) = mkStream None false /\
  m_currentSessionActive (fst (endSession env w2)) = false /\
  m_profileCount (fst (endSession env w2)) = 0 /\
  m_sessionStartUs (fst (endSession env w2)) = 0 /\
  snd w5 !! p1 = Some (document (nowUs clock1) rs1) /\
  snd w5 !! p2 = Some (document (nowUs clock2) rs2) /\
  m_currentSessionActive (fst w5) = false /\
  (Forall (fun r => plain (name r) = true) rs1 ->
   json_valid (document (nowUs clock1) rs1) = true) /\
  (Forall (fun r => plain (name r) = true) rs2 ->
   json_valid (document (nowUs clock2) rs2) = true).
Proof.
  intros Hc Hne O1 W1 O2 W2 w1 w2 w3 w4 w5.
  destruct (session_begin env nameA p1 clock1 w0 Hc O1 W1) as [S1 _].
  fold w1 in S1.
  destruct (session_record_all env p1 _ rs1 [] w1 S1) as [S2 _].
  fold w2 in S2. cbn [app] in S2.
  pose proof (session_end env _ _ _ _ S2) as E2.
  assert (C2 : closed_when_inactive w2).
  { intros Hin. destruct S2 as (Ha & _). congruence. }
  destruct (session_begin env nameB p2 clock2 w2 C2 O2 W2) as [S3 F3].
  fold w3 in S3, F3.
  destruct (session_record_all env p2 _ rs2 [] w3 S3) as [S4 F4].
  fold w4 in S4, F4. cbn [app] in S4.
  pose proof (session_end env _ _ _ _ S4) as E5. fold w5 in E5.
  assert (D1 : snd (endSession env w2) !! p1 = Some (document (nowUs clock1) rs1)).
  { rewrite E2. cbn [snd]. rewrite lookup_insert_eq.
    unfold document. now rewrite append_assoc. }
  split; [apply beginSession_after_end|]. split; [exact D1|].
  do 4 (split; [now rewrite E2|]).
  split; [|split; [|split; [|split]]].
  - rewrite E5. cbn [snd]. rewrite lookup_insert_ne by congruence.
    rewrite (F4 p1 Hne), (F3 p1 Hne). exact D1.
  - rewrite E5. cbn [snd]. rewrite lookup_insert_eq.
    unfold document. now rewrite append_assoc.
  - now rewrite E5.
  - apply document_json_valid.
  - apply document_json_valid.
Qed.

End WithEnv.

Lemma beginSession_twice_witness :
  closed_when_inactive fresh_world /\
  "a.json" <> "b.json" /\
  openable harsh_env "a.json" = true /\ writable harsh_env "a.json" = true /\
  openable harsh_env "b.json" = true /\ writable harsh_env "b.json" = true /\
  let w1 := beginSession harsh_env "A" "a.json" 100 fresh_world in
  let w2 := record_all harsh_env [first_interval] w1 in
  let w3 := beginSession harsh_env "B" "b.json" 140 w2 in
  let w4 := record_all harsh_env [second_interval] w3 in
  let w5 := endSession harsh_env w4 in
  snd w5 !! "a.json" = Some (document 100 [first_interval]) /\
  snd w5 !! "b.json" = Some (document 140 [second_interval]) /\
  json_valid (document 100 [first_interval]) = true.
Proof.
  assert (Hc : closed_when_inactive fresh_world) by (intros _; reflexivity).
  assert (Hne : "a.json" <> "b.json") by discriminate.
  split; [exact Hc|]. split; [exact Hne|]. do 4 (split; [reflexivity|]).
  destruct (beginSession_twice harsh_env "A" "B" "a.json" "b.json" 100 140
              [first_interval] [second_interval] fresh_world
              Hc Hne eq_refl eq_refl eq_refl eq_refl)
    as (_ & _ & _ & _ & _ & _ & Ha & Hb & _ & Hv & _).
  split; [exact Ha|]. split; [exact Hb|].
  apply Hv. repeat constructor.
Defined.

(** C7, as the specification has it, fails.  Two sessions begun one
    after the other on the same path, [results.json], the path used when
    none is given: the second [beginSession] opens the file again and
    empties it, and in the end there is one document, that of the second
    session; the interval of the first is in no file.  And a session whose
    one interval has a name that ends in a backslash: the file it leaves
    is not a JSON text. *)
Lemma beginSession_twice_one_document :
  (let w1 := beginSession harsh_env "A" "results.json" 100 fresh_world in
   let w2 := record_all harsh_env [first_interval] w1 in
   let w3 := beginSession harsh_env "B" "results.json" 140 w2 in
   let w4 := record_all harsh_env [second_interval] w3 in
   let w5 := endSession harsh_env w4 in
   snd w5 = {[ "results.json" := document 140 [second_interval] ]} /\
   document 140 [second_interval] <> document 100 [first_interval]) /\
  (let w1 := beginSession harsh_env "A" "a.json" 100 fresh_world in
   let w2 := record_all harsh_env [backslash_interval] w1 in
   let w3 := endSession harsh_env w2 in
   snd w3 !! "a.json" = Some (document 100 [backslash_interval]) /\
   json_valid (document 100 [backslash_interval]) = false).
Proof.
  split; cbv zeta; split.
  - vm_compute. reflexivity.
  - vm_compute. discriminate.
  - vm_compute. reflexivity.
  - vm_compute. reflexivity.
Qed.

End JsonFacts.
